(** * Low side / high side reconciliation ([syft/client/syncing.py])

    A shallow embedding of the diff primitives, the per-category
    comparators, the [Diff] record, the [State] container and the state
    builder [get_sync_state], together with the properties the
    specification states about them.

    Python values are dynamically typed; they are embedded in one universe
    [value], with [VNone] for [None].  Code that can raise returns a
    [result] that names the exception, and [State.add_obj], which mutates
    its state, takes the state and returns the new one.  The [!=] of the
    compared values is a parameter ([PyNe]); [value_ne] is the field-wise
    one that the examples use. *)

From Stdlib Require Import ZArith.
From stdpp Require Import strings base option list gmap.

(** ** Exceptions and results *)

Inductive exn : Type :=
| Exception (msg : string)      (* [raise Exception(msg)] *)
| TypeError (msg : string)
| AttributeError (name : string)
| IndexError
| KeyError.

Inductive result (A : Type) : Type :=
| Ok (a : A)
| Raise (e : exn).

Arguments Ok {A} a.
Arguments Raise {A} e.

Definition bind {A B} (m : result A) (k : A -> result B) : result B :=
  match m with
  | Ok a => k a
  | Raise e => Raise e
  end.

Notation "'let*' x ':=' m 'in' k" := (bind m (fun x => k))
  (at level 10, x pattern, m at level 100, k at level 200).

Definition raises {A} (m : result A) : Prop := exists e, m = Raise e.

(** [for x in xs: body], the loop state threaded through the iterations;
    an exception leaves the loop at once. *)
Fixpoint for_each {A S} (xs : list A) (body : A -> S -> result S) (s : S)
  : result S :=
  match xs with
  | [] => Ok s
  | x :: xs' => let* s' := body x s in for_each xs' body s'
  end.

(** [range(a, b)] *)
Definition range (a b : nat) : list nat := seq a (b - a).

(** [l[i]] for a list: out of range raises [IndexError]. *)
Definition getitem {A} (l : list A) (i : nat) : result A :=
  match l !! i with
  | Some x => Ok x
  | None => Raise IndexError
  end.

(** The [!=] of a Python type ([__ne__]); no law is assumed of it. *)
Class PyNe (A : Type) := py_ne : A -> A -> bool.

(** ** Structural diff primitives *)

(** [d[key]] for a dict used as a map: a missing key raises [KeyError]. *)
Definition map_getitem `{Countable K} {V} (d : gmap K V) (key : K)
  : result V :=
  match d !! key with
  | Some v => Ok v
  | None => Raise KeyError
  end.

(** [get_diff_dict].  The two dicts are read as finite maps and their key
    sets as finite sets; a Python set is iterated in no specified order,
    here in the order of [elements]. *)
Definition get_diff_dict `{Countable K} {V} {ne : PyNe V}
    (low_dict high_dict : gmap K V) : result (list K * list K * list K) :=
  let low_dict_keys : gset K := dom low_dict in
  let high_dict_keys : gset K := dom high_dict in
  let common_keys := low_dict_keys ∩ high_dict_keys in
  let new_low_keys := low_dict_keys ∖ high_dict_keys in
  let new_high_keys := high_dict_keys ∖ low_dict_keys in
  let* diff_keys :=
    for_each (elements common_keys)
      (fun key diff_keys =>
         let* a := map_getitem low_dict key in
         let* b := map_getitem high_dict key in
         Ok (if py_ne a b then diff_keys ++ [key] else diff_keys))
      [] in
  Ok (diff_keys, elements new_low_keys, elements new_high_keys).

(** [get_diff_list] *)
Definition get_diff_list {A} {ne : PyNe A} (low_list high_list : list A)
  : result (list nat * list nat * list nat) :=
  let '(common_length, new_low_ids, new_high_ids) :=
    if negb (length low_list =? length high_list) then
      if length high_list <? length low_list then
        (length high_list,
         range (length high_list) (length low_list), [])
      else
        (length low_list, [],
         range (length low_list) (length high_list))
    else (length low_list, [], []) in
  let* diff_ids :=
    for_each (range 0 common_length)
      (fun i diff_ids =>
         let* a := getitem low_list i in
         let* b := getitem high_list i in
         Ok (if py_ne a b then diff_ids ++ [i] else diff_ids))
      [] in
  Ok (diff_ids, new_low_ids, new_high_ids).

(** ** Python values

    [UID] is the 128-bit value of a record's identifier; two identifiers
    are the same when their values are. *)

Definition UID : Type := N.

Inductive pyclass : Type :=
| Project
| Request
| UserCode
| Job
| SyftLog
| ActionObject
| ActionDataEmpty
| OtherClass.

(** [cls.__name__] *)
Definition class_name (c : pyclass) : string :=
  match c with
  | Project => "Project"
  | Request => "Request"
  | UserCode => "UserCode"
  | Job => "Job"
  | SyftLog => "SyftLog"
  | ActionObject => "ActionObject"
  | ActionDataEmpty => "ActionDataEmpty"
  | OtherClass => "object"
  end.

Definition pyclass_eqb (a b : pyclass) : bool :=
  match a, b with
  | Project, Project | Request, Request | UserCode, UserCode
  | Job, Job | SyftLog, SyftLog | ActionObject, ActionObject
  | ActionDataEmpty, ActionDataEmpty | OtherClass, OtherClass => true
  | _, _ => false
  end.

(** A Python value: [None], scalars, lists, dicts (items in insertion
    order) and objects.  An object has its class, its [id] and its other
    attributes by name. *)
#[warnings="-register-all"]
Inductive value : Type :=
| VNone
| VBool (b : bool)
| VInt (n : Z)
| VStr (s : string)
| VList (items : list value)
| VDict (items : list (value * value))
| VObj (cls : pyclass) (id : UID) (fields : list (string * value)).

(** [v is None] *)
Definition is_None (v : value) : bool :=
  match v with
  | VNone => true
  | _ => false
  end.

(** [isinstance(v, c)] *)
Definition isinstance (v : value) (c : pyclass) : bool :=
  match v with
  | VObj c' _ _ => pyclass_eqb c' c
  | _ => false
  end.

(** [v.id] *)
Definition get_id (v : value) : result UID :=
  match v with
  | VObj _ i _ => Ok i
  | _ => Raise (AttributeError "id")
  end.

Fixpoint assoc {A} (name : string) (l : list (string * A)) : option A :=
  match l with
  | [] => None
  | (k, v) :: l' => if String.eqb k name then Some v else assoc name l'
  end.

(** [getattr(v, name)] *)
Definition getattr (v : value) (name : string) : result value :=
  match v with
  | VObj _ _ fields =>
      match assoc name fields with
      | Some x => Ok x
      | None => Raise (AttributeError name)
      end
  | _ => Raise (AttributeError name)
  end.

(** The list behind a value used as a sequence ([len(v)], [v[i]]). *)
Definition as_list (v : value) : result (list value) :=
  match v with
  | VList items => Ok items
  | _ => Raise (TypeError "object has no len()")
  end.

(** [list(v.values())] *)
Definition dict_values_list (v : value) : result (list value) :=
  match v with
  | VDict items => Ok (map snd items)
  | _ => Raise (AttributeError "values")
  end.

(** Field-wise equality of values, the [==] that plain data has. *)
Fixpoint value_eqb (a b : value) {struct a} : bool :=
  match a, b with
  | VNone, VNone => true
  | VBool x, VBool y => Bool.eqb x y
  | VInt x, VInt y => (x =? y)%Z
  | VStr x, VStr y => String.eqb x y
  | VList xs, VList ys =>
      (fix go (xs ys : list value) {struct xs} : bool :=
         match xs, ys with
         | [], [] => true
         | x :: xs', y :: ys' => value_eqb x y && go xs' ys'
         | _, _ => false
         end) xs ys
  | VDict xs, VDict ys =>
      (fix go (xs ys : list (value * value)) {struct xs} : bool :=
         match xs, ys with
         | [], [] => true
         | (k, x) :: xs', (k', y) :: ys' =>
             value_eqb k k' && value_eqb x y && go xs' ys'
         | _, _ => false
         end) xs ys
  | VObj c i xs, VObj c' i' ys =>
      pyclass_eqb c c' && (i =? i')%N &&
      (fix go (xs ys : list (string * value)) {struct xs} : bool :=
         match xs, ys with
         | [], [] => true
         | (k, x) :: xs', (k', y) :: ys' =>
             String.eqb k k' && value_eqb x y && go xs' ys'
         | _, _ => false
         end) xs ys
  | _, _ => false
  end.

Definition Z_ne : PyNe Z := fun a b => negb (a =? b)%Z.
Definition value_ne : PyNe value := fun a b => negb (value_eqb a b).

(** ** Field differences *)

(** [DiffAttr], and its subclass [DiffList] with the three index lists. *)
Inductive DiffAttr : Type :=
| mkDiffAttr (attr_name : string) (low_attr high_attr : value)
| mkDiffList (attr_name : string) (low_attr high_attr : value)
    (diff_ids new_low_ids new_high_ids : list nat).

Definition id_mismatch : exn :=
  Exception "Not the same id for low side and high side requests".

Section Comparators.

Context {ne : PyNe value}.

(** The loop every comparator runs over its [basic_attrs]:
    [for attr in basic_attrs: ... if low_attr != high_attr:
     diff_attrs.append(DiffAttr(...))]. *)
Definition compare_attrs (basic_attrs : list string) (low high : value)
    (diff_attrs : list DiffAttr) : result (list DiffAttr) :=
  for_each basic_attrs
    (fun attr diff_attrs =>
       let* low_attr := getattr low attr in
       let* high_attr := getattr high attr in
       Ok (if py_ne low_attr high_attr
           then diff_attrs ++ [mkDiffAttr attr low_attr high_attr]
           else diff_attrs))
    diff_attrs.

(** The sanity check at the head of every comparator. *)
Definition check_same_id (low high : value) : result unit :=
  let* low_id := get_id low in
  let* high_id := get_id high in
  if negb (low_id =? high_id)%N then Raise id_mismatch else Ok tt.

(** [get_diff_list] on a list-valued attribute, and the [DiffList] that is
    appended when one of the three index lists is not empty. *)
Definition diff_list_attr (name attr : string) (low high : value)
    (diff_attrs : list DiffAttr) : result (list DiffAttr) :=
  let* low_attr := getattr low attr in
  let* high_attr := getattr high attr in
  let* low_list := as_list low_attr in
  let* high_list := as_list high_attr in
  let* diffs := get_diff_list low_list high_list in
  let '(diff_ids, new_low_ids, new_high_ids) := diffs in
  if existsb (fun l : list nat => negb (length l =? 0))
       [diff_ids; new_low_ids; new_high_ids]
  then Ok (diff_attrs ++
           [mkDiffList name low_attr high_attr
              diff_ids new_low_ids new_high_ids])
  else Ok diff_attrs.

Definition request_basic_attrs : list string :=
  ["requesting_user_name"; "requesting_user_email";
   "requesting_user_institution"; "approving_user_verify_key";
   "request_time"; "updated_at"; "request_hash"]%string.

Definition get_diff_request (low_request high_request : value)
  : result (list DiffAttr) :=
  let* _ := check_same_id low_request high_request in
  let* diff_attrs :=
    compare_attrs request_basic_attrs low_request high_request [] in
  let* diff_attrs :=
    diff_list_attr "change" "changes" low_request high_request diff_attrs in
  diff_list_attr "history" "history" low_request high_request diff_attrs.

Definition user_code_basic_attrs : list string :=
  ["raw_code"; "input_policy_type"; "input_policy_init_kwargs";
   "input_policy_state"; "output_policy_type"; "output_policy_init_kwargs";
   "output_policy_state"; "parsed_code"; "service_func_name";
   "unique_func_name"; "user_unique_func_name"; "code_hash"; "signature";
   "input_kwargs"; "submit_time"; "uses_domain"; "worker_pool_name"]%string.

(** [list(code.status.status_dict.values())[0]] *)
Definition first_status (code : value) : result value :=
  let* status := getattr code "status" in
  let* status_dict := getattr status "status_dict" in
  let* values := dict_values_list status_dict in
  getitem values 0.

Definition get_diff_user_code (low_code high_code : value)
  : result (list DiffAttr) :=
  let* _ := check_same_id low_code high_code in
  let* diff_attrs :=
    compare_attrs user_code_basic_attrs low_code high_code [] in
  let* low_status := first_status low_code in
  let* high_status := first_status high_code in
  Ok (if py_ne low_status high_status
      then diff_attrs ++ [mkDiffAttr "status" low_status high_status]
      else diff_attrs).

Definition log_basic_attrs : list string := ["stdout"; "stderr"]%string.

Definition get_diff_log (low_log high_log : value) : result (list DiffAttr) :=
  let* _ := check_same_id low_log high_log in
  compare_attrs log_basic_attrs low_log high_log [].

Definition job_basic_attrs : list string :=
  ["result"; "resolved"; "status"; "log_id"; "parent_job_id"; "n_iters";
   "current_iter"; "creation_time"; "job_pid"; "job_worker_id";
   "updated_at"; "user_code_id"]%string.

Definition get_diff_job (low_job high_job : value) : result (list DiffAttr) :=
  let* _ := check_same_id low_job high_job in
  compare_attrs job_basic_attrs low_job high_job [].

Definition action_object_basic_attrs : list string :=
  ["__attr_searchable__"; "syft_action_data_cache";
   "syft_blob_storage_entry_id"; "syft_pointer_type"; "syft_parent_hashes";
   "syft_parent_op"; "syft_parent_args"; "syft_parent_kwargs";
   "syft_history_hash"; "syft_internal_type"; "syft_node_uid";
   "_syft_pre_hooks__"; "_syft_post_hooks__"; "syft_twin_type";
   "syft_action_data_type"; "syft_action_data_repr_";
   "syft_action_data_str_"; "syft_has_bool_attr"; "syft_resolve_data";
   "syft_created_at"; "syft_resolved"]%string.

Definition get_diff_action_object (low_action_object high_action_object : value)
  : result (list DiffAttr) :=
  let* _ := check_same_id low_action_object high_action_object in
  compare_attrs action_object_basic_attrs
    low_action_object high_action_object [].

(** ** The comparator registry *)

Definition comparator : Type := value -> value -> result (list DiffAttr).

Definition func_dict : list (string * option comparator) :=
  [("SyftLog"%string, Some get_diff_log);
   ("Job"%string, Some get_diff_job);
   ("UserCode"%string, Some get_diff_user_code);
   ("Request"%string, Some get_diff_request);
   ("Project"%string, None);
   ("ActionObject"%string, None)].

(** [func_dict.get(name, None)] *)
Definition func_dict_get (name : string) : option comparator :=
  match assoc name func_dict with
  | Some f => f
  | None => None
  end.

(** [override_func(low_obj, high_obj)]: calling [None] is a [TypeError]. *)
Definition call (override_func : option comparator) (low_obj high_obj : value)
  : result (list DiffAttr) :=
  match override_func with
  | Some f => f low_obj high_obj
  | None => Raise (TypeError "'NoneType' object is not callable")
  end.

End Comparators.

(** ** Diff and State *)

Record Diff : Type := mkDiff {
  low_obj : value;          (* [None] when absent *)
  high_obj : value;
  obj_type : pyclass;
  merge_state : string;
  diff_list : list DiffAttr
}.

(** [Diff.get_obj] *)
Definition get_obj (self : Diff) : value :=
  if String.eqb (merge_state self) "NEW" then
    if negb (is_None (low_obj self)) then low_obj self else high_obj self
  else VStr "Error".

(** [get_type].  Its last line, [raise NotImplemented], raises a
    [TypeError], as [NotImplemented] is no exception class. *)
Definition get_type (obj : value) : result pyclass :=
  if isinstance obj Project then Ok Project
  else if isinstance obj Request then Ok Request
  else if isinstance obj UserCode then Ok UserCode
  else if isinstance obj Job then Ok Job
  else if isinstance obj SyftLog then Ok SyftLog
  else if isinstance obj ActionObject then Ok ActionObject
  else Raise (TypeError "exceptions must derive from BaseException").

Record State : Type := mkState {
  diff_to_sync : list Diff
}.

(** [self.diff_to_sync.append(diff)] *)
Definition append_diff (self : State) (diff : Diff) : State :=
  {| diff_to_sync := diff_to_sync self ++ [diff] |}.

Definition invalid_pair : exn := Exception "Both objects are None".

(** [State.objs_to_sync] *)
Definition objs_to_sync (self : State) : list value :=
  fold_left
    (fun objs diff =>
       if String.eqb (merge_state diff) "NEW"
       then objs ++ [get_obj diff]
       else objs)
    (diff_to_sync self) [].

Section Classifier.

Context {ne : PyNe value}.

(** The helper [get_merge_state]; [add_obj] does not call it. *)
Definition get_merge_state (low_obj high_obj : value) (obj_type : pyclass)
  : result string :=
  if is_None low_obj && is_None high_obj then Ok "Error"%string
  else if is_None low_obj || is_None high_obj then Ok "NEW"%string
  else
    match func_dict_get (class_name obj_type) with
    | Some override_func =>
        let* diffs := override_func low_obj high_obj in
        if length diffs =? 0 then Ok "SAME"%string else Ok "DIFF"%string
    | None => Ok "DIFF"%string
    end.

(** [State.add_obj]; an exception leaves the state as it was. *)
Definition add_obj (low_obj high_obj : value) (self : State) : result State :=
  if is_None low_obj && is_None high_obj then Raise invalid_pair
  else
    let* obj_type :=
      get_type (if negb (is_None low_obj) then low_obj else high_obj) in
    let* diff :=
      if is_None low_obj || is_None high_obj then
        Ok (mkDiff low_obj high_obj obj_type "NEW" [])
      else
        let* obj_type :=
          get_type (if negb (is_None low_obj) then low_obj else high_obj) in
        let override_func := func_dict_get (class_name obj_type) in
        let* diff_list := call override_func low_obj high_obj in
        let merge_state :=
          if length diff_list =? 0 then "SAME"%string else "DIFF"%string in
        Ok (mkDiff low_obj high_obj obj_type merge_state diff_list) in
    Ok (append_diff self diff).

End Classifier.

(** ** The state builder *)

(** A Python dict keyed by identifiers: the items in insertion order, no
    key twice. *)
Definition pydict : Type := list (UID * value).

(** [d[k] = v]: a present key keeps its place and gets the new value, a new
    key goes to the end. *)
Fixpoint dict_setitem (k : UID) (v : value) (d : pydict) : pydict :=
  match d with
  | [] => [(k, v)]
  | (k', v') :: d' =>
      if (k' =? k)%N then (k, v) :: d' else (k', v') :: dict_setitem k v d'
  end.

Fixpoint dict_get (d : pydict) (k : UID) : option value :=
  match d with
  | [] => None
  | (k', v) :: d' => if (k' =? k)%N then Some v else dict_get d' k
  end.

(** [k in d] *)
Definition dict_contains (k : UID) (d : pydict) : bool :=
  match dict_get d k with
  | Some _ => true
  | None => false
  end.

(** [d[k]] *)
Definition dict_getitem (d : pydict) (k : UID) : result value :=
  match dict_get d k with
  | Some v => Ok v
  | None => Raise KeyError
  end.

(** [d.values()] *)
Definition dict_values (d : pydict) : list value := map snd d.

(** [dictify = lambda obj_list: {obj.id: obj for obj in obj_list}] *)
Definition dictify (obj_list : list value) : result pydict :=
  for_each obj_list
    (fun obj d => let* k := get_id obj in Ok (dict_setitem k obj d))
    [].

(** What the builder reads from a client: [client.projects],
    [client.requests], [client.code], [client.jobs] and
    [client.api.services.log.get_all()]. *)
Record Client : Type := mkClient {
  projects : list value;
  requests : list value;
  code : list value;
  jobs : list value;
  logs : list value
}.

Section Builder.

Context {ne : PyNe value}.

(** The loop of the projects, the requests and the user codes, over the
    values of the low side's dict. *)
Definition sync_low_side (low_side high_side : pydict) (sync_state : State)
  : result State :=
  for_each (dict_values low_side)
    (fun obj sync_state =>
       let* obj_id := get_id obj in
       if dict_contains obj_id high_side then
         let* high := dict_getitem high_side obj_id in
         add_obj obj high sync_state
       else
         add_obj obj VNone sync_state)
    sync_state.

(** The body of the jobs and logs loops, over the values of the high side's
    dict. *)
Definition sync_high_obj (low_side : pydict) (obj : value) (sync_state : State)
  : result State :=
  let* obj_id := get_id obj in
  if dict_contains obj_id low_side then
    let* low := dict_getitem low_side obj_id in
    add_obj low obj sync_state
  else
    add_obj VNone obj sync_state.

Definition sync_jobs (low_side_jobs high_side_jobs : pydict)
    (sync_state : State) : result State :=
  for_each (dict_values high_side_jobs)
    (fun job sync_state =>
       let* sync_state := sync_high_obj low_side_jobs job sync_state in
       let* job_result := getattr job "result" in
       if negb (isinstance job_result ActionDataEmpty) then
         add_obj VNone job_result sync_state
       else Ok sync_state)
    sync_state.

Definition sync_logs (low_side_logs high_side_logs : pydict)
    (sync_state : State) : result State :=
  for_each (dict_values high_side_logs)
    (fun log sync_state => sync_high_obj low_side_logs log sync_state)
    sync_state.

(** [get_sync_state] *)
Definition get_sync_state (low_side_client high_side_client : Client)
  : result State :=
  let sync_state := mkState [] in
  let* low_side_projects := dictify (projects low_side_client) in
  let* high_side_projects := dictify (projects high_side_client) in
  let* sync_state :=
    sync_low_side low_side_projects high_side_projects sync_state in
  let* low_side_requests := dictify (requests low_side_client) in
  let* high_side_requests := dictify (requests high_side_client) in
  let* sync_state :=
    sync_low_side low_side_requests high_side_requests sync_state in
  let* low_side_codes := dictify (code low_side_client) in
  let* high_side_codes := dictify (code high_side_client) in
  let* sync_state :=
    sync_low_side low_side_codes high_side_codes sync_state in
  let* low_side_jobs := dictify (jobs low_side_client) in
  let* high_side_jobs := dictify (jobs high_side_client) in
  let* sync_state := sync_jobs low_side_jobs high_side_jobs sync_state in
  let* low_side_logs := dictify (logs low_side_client) in
  let* high_side_logs := dictify (logs high_side_client) in
  sync_logs low_side_logs high_side_logs sync_state.

End Builder.

(** ** The attribute check [check_diff] *)


Section CheckDiff.

Context {ne : PyNe value}.



End CheckDiff.

(** ** The displayed states of a [Diff] *)

(** What an f-string puts for a value ([format(x)]). *)
Class PyStr (A : Type) := py_str : A -> string.

Definition attr_name (self : DiffAttr) : string :=
  match self with
  | mkDiffAttr attr_name _ _ => attr_name
  | mkDiffList attr_name _ _ _ _ _ => attr_name
  end.

Definition low_attr (self : DiffAttr) : value :=
  match self with
  | mkDiffAttr _ low_attr _ => low_attr
  | mkDiffList _ low_attr _ _ _ _ => low_attr
  end.

Definition high_attr (self : DiffAttr) : value :=
  match self with
  | mkDiffAttr _ _ high_attr => high_attr
  | mkDiffList _ _ high_attr _ _ _ => high_attr
  end.

(** The line feed ['\n']. *)
Definition newline : string := String (Ascii.ascii_of_nat 10) EmptyString.

(** [s[:-n]], for [n] above zero: [s] without its last [n] characters, the
    empty string when [s] has no more than [n]. *)
Definition drop_last (n : nat) (s : string) : string :=
  String.substring 0 (String.length s - n) s.

(** [Diff.object_type] *)
Definition object_type (self : Diff) : string := class_name (obj_type self).

Section DisplayedStates.

Context {str : PyStr value}.

(** [DiffAttr.__repr_low_side__] and [DiffAttr.__repr_high_side__] *)
Definition repr_low_side (self : DiffAttr) : string := py_str (low_attr self).
Definition repr_high_side (self : DiffAttr) : string := py_str (high_attr self).

(** [Diff.low_state] *)
Definition low_state (self : Diff) : string :=
  if is_None (low_obj self) then "n/a"%string
  else if is_None (high_obj self) then "NEW"%string
  else
    let attr_text := object_type self +:+ "(" in
    let attr_text :=
      fold_left
        (fun attr_text diff =>
           attr_text +:+
           ((attr_name diff +:+ "=" +:+ repr_low_side diff +:+ ",") +:+ newline))
        (diff_list self) attr_text in
    if 0 <? length (diff_list self)
    then drop_last 2 attr_text +:+ ")"
    else attr_text +:+ ")".

(** [Diff.high_state] *)
Definition high_state (self : Diff) : string :=
  if is_None (high_obj self) then "n/a"%string
  else if is_None (low_obj self) then "NEW"%string
  else
    let attr_text := object_type self +:+ "(" in
    let attr_text :=
      fold_left
        (fun attr_text diff =>
           attr_text +:+
           ((attr_name diff +:+ "=" +:+ repr_high_side diff +:+ ",") +:+ newline))
        (diff_list self) attr_text in
    if 0 <? length (diff_list self)
    then drop_last 2 attr_text +:+ ")"
    else attr_text +:+ ")".

End DisplayedStates.

(** * Vocabulary of the properties *)

(** ** Diff primitives *)

(** [low[i] != high[i]], for an index both lists have. *)
Definition differs_at {A} {ne : PyNe A} (low high : list A) (i : nat) : bool :=
  match low !! i, high !! i with
  | Some a, Some b => py_ne a b
  | _, _ => false
  end.

Definition common_length {A} (low high : list A) : nat :=
  Nat.min (length low) (length high).

(** [low[k] != high[k]], for a key both dicts have. *)
Definition differs_on `{Countable K} {V} {ne : PyNe V}
    (low high : gmap K V) (k : K) : bool :=
  match low !! k, high !! k with
  | Some a, Some b => py_ne a b
  | _, _ => false
  end.

(** ** Entries and their states *)

(** The record of a [Diff] that is present: [low_obj], or [high_obj] when
    [low_obj] is absent. *)
Definition present_record (d : Diff) : value :=
  if is_None (low_obj d) then high_obj d else low_obj d.

Definition is_new (d : Diff) : bool := String.eqb (merge_state d) "NEW".

(** The merge state that goes with a comparator's output. *)
Definition state_of (diffs : list DiffAttr) : string :=
  match diffs with
  | [] => "SAME"
  | _ :: _ => "DIFF"
  end.

Definition not_callable : exn := TypeError "'NoneType' object is not callable".

Definition exactly_one_absent (d : Diff) : Prop :=
  xorb (is_None (low_obj d)) (is_None (high_obj d)) = true.

Definition both_present (d : Diff) : Prop :=
  is_None (low_obj d) = false /\ is_None (high_obj d) = false.

Definition both_absent (d : Diff) : Prop :=
  is_None (low_obj d) = true /\ is_None (high_obj d) = true.

Definition presence_invariant (d : Diff) : Prop :=
  (exactly_one_absent d <-> merge_state d = "NEW"%string) /\
  (both_present d <->
     merge_state d = "SAME"%string \/ merge_state d = "DIFF"%string) /\
  ~ both_absent d.

(** A record: an instance of one of the classes [get_type] knows. *)
Definition is_record (v : value) : Prop :=
  exists c i fields,
    v = VObj c i fields /\
    In c [Project; Request; UserCode; Job; SyftLog; ActionObject].

Definition entry_ok (d : Diff) : Prop :=
  presence_invariant d /\
  (merge_state d = "NEW"%string -> is_record (present_record d)).

(** [s'] holds the entries of [s] and maybe more after them. *)
Definition extends (s s' : State) : Prop :=
  exists ds, diff_to_sync s' = diff_to_sync s ++ ds.

(** An entry of [st] holds the pair [(low, high)]: in state ["NEW"] with no
    differences when one of the two is [None], and otherwise in the state
    that goes with its list of differences. *)
Definition entry_for (low high : value) (st : State) : Prop :=
  exists d, In d (diff_to_sync st) /\
    low_obj d = low /\ high_obj d = high /\
    (is_None low || is_None high = true ->
       merge_state d = "NEW"%string /\ diff_list d = []) /\
    (is_None low || is_None high = false ->
       (diff_list d = [] /\ merge_state d = "SAME"%string) \/
       (diff_list d <> [] /\ merge_state d = "DIFF"%string)).

(** [v] has every attribute of [names]. *)
Definition has_attrs (names : list string) (v : value) : Prop :=
  forall name, In name names -> exists x, getattr v name = Ok x.

(** ** Identity-keyed lookups *)

(** The record [dictify] keeps for an identity: the last one of the list
    that has it. *)
Fixpoint record_of (objs : list value) (k : UID) : option value :=
  match objs with
  | [] => None
  | v :: objs' =>
      match record_of objs' k with
      | Some w => Some w
      | None =>
          match get_id v with
          | Ok k' => if (k' =? k)%N then Some v else None
          | Raise _ => None
          end
      end
  end.

(** [d.get(k)] *)
Definition or_None (o : option value) : value :=
  match o with
  | Some v => v
  | None => VNone
  end.

(** Every identity of the low-side list [lows] has an entry: the low-side
    record of that identity with the high-side record of that identity, or
    with [None] when the high side has none. *)
Definition low_side_covered (lows highs : list value) (st : State) : Prop :=
  forall v, In v lows ->
    exists k v', get_id v = Ok k /\ record_of lows k = Some v' /\
                 entry_for v' (or_None (record_of highs k)) st.

(** Every identity of the high-side list [highs] has an entry: the high-side
    record of that identity with the low-side record of that identity, or
    with [None] when the low side has none. *)
Definition high_side_covered (lows highs : list value) (st : State) : Prop :=
  forall w, In w highs ->
    exists k w', get_id w = Ok k /\ record_of highs k = Some w' /\
                 entry_for (or_None (record_of lows k)) w' st.

(** ** Classification *)

Section Vocabulary.

Context {ne : PyNe value}.

(** The [Diff] that [add_obj] builds, apart from the state it goes to. *)
Definition classify (low high : value) : result Diff :=
  if is_None low && is_None high then Raise invalid_pair
  else
    let* c := get_type (if negb (is_None low) then low else high) in
    if is_None low || is_None high then Ok (mkDiff low high c "NEW" [])
    else
      let* diffs := call (func_dict_get (class_name c)) low high in
      Ok (mkDiff low high c (state_of diffs) diffs).

(** The states a reconciliation pass can hold: the empty [State()], grown
    by calls of [add_obj] that returned. *)
Inductive built : State -> Prop :=
| built_empty : built (mkState [])
| built_add low high st st' :
    built st -> add_obj low high st = Ok st' -> built st'.

(** [d] is an entry of [s] that classifies the pair [(low, high)]. *)
Definition classified (low high : value) (s : State) : Prop :=
  exists d, classify low high = Ok d /\ In d (diff_to_sync s).

(** One iteration over a low-side record. *)
Definition low_entry (high_side : pydict) (obj : value) (s : State) : Prop :=
  exists k, get_id obj = Ok k /\
            classified obj (or_None (dict_get high_side k)) s.

(** One iteration over a high-side record. *)
Definition high_entry (low_side : pydict) (obj : value) (s : State) : Prop :=
  exists k, get_id obj = Ok k /\
            classified (or_None (dict_get low_side k)) obj s.

(** The second step of the jobs loop, for the job's result. *)
Definition result_entry (job : value) (s : State) : Prop :=
  exists r, getattr job "result" = Ok r /\
            (isinstance r ActionDataEmpty = false -> classified VNone r s).

Definition low_side_classified (lows highs : list value) (st : State) : Prop :=
  forall v, In v lows ->
    exists k v', get_id v = Ok k /\ record_of lows k = Some v' /\
                 classified v' (or_None (record_of highs k)) st.

Definition high_side_classified (lows highs : list value) (st : State) : Prop :=
  forall w, In w highs ->
    exists k w', get_id w = Ok k /\ record_of highs k = Some w' /\
                 classified (or_None (record_of lows k)) w' st.

(** The results of the high-side jobs that are no [ActionDataEmpty] each
    have an entry of their own, with no low-side object. *)
Definition job_results_classified (highs : list value) (st : State) : Prop :=
  forall k job, record_of highs k = Some job ->
    exists r, getattr job "result" = Ok r /\
      (isinstance r ActionDataEmpty = false -> classified VNone r st).

(** The classifier returns for the pair [(low, high)]. *)
Definition classifiable (low high : value) : Prop :=
  exists d, classify low high = Ok d.

(** What a pass needs in order to return: every object of the ten
    collections has an [id]; every pair the loops enumerate classifies; and
    every job the high side's lookup holds has a [result] that is an
    [ActionDataEmpty] or a record. *)
Definition pass_preconditions (l h : Client) : Prop :=
  (forall coll, In coll [projects; requests; code; jobs; logs] ->
     forall c, In c [l; h] ->
       forall v, In v (coll c) -> exists k, get_id v = Ok k) /\
  (forall coll, In coll [projects; requests; code] ->
     forall k v, record_of (coll l) k = Some v ->
       classifiable v (or_None (record_of (coll h) k))) /\
  (forall coll, In coll [jobs; logs] ->
     forall k w, record_of (coll h) k = Some w ->
       classifiable (or_None (record_of (coll l) k)) w) /\
  (forall k job, record_of (jobs h) k = Some job ->
     exists r, getattr job "result" = Ok r /\
       (isinstance r ActionDataEmpty = false -> is_record r)).

(** The differences of two records on a list of attributes, in the order
    of the list: one [DiffAttr] for each attribute both have whose values
    are [!=]. *)
Definition attr_diffs (names : list string) (low high : value)
  : list DiffAttr :=
  flat_map
    (fun name =>
       match getattr low name, getattr high name with
       | Ok a, Ok b => if py_ne a b then [mkDiffAttr name a b] else []
       | _, _ => []
       end)
    names.

End Vocabulary.

(** ** Sample records *)

Definition sample_log (i : UID) (out err : string) : value :=
  VObj SyftLog i [("stdout"%string, VStr out); ("stderr"%string, VStr err)].

Definition empty_result : value := VObj ActionDataEmpty 0%N [].

Definition sample_job (i : UID) (status : string) (result : value) : value :=
  VObj Job i
    (map (fun name =>
            (name,
             if String.eqb name "result" then result
             else if String.eqb name "status" then VStr status
             else VNone))
       job_basic_attrs).

Definition sample_project (i : UID) : value := VObj Project i [].

Definition sample_action_object (i : UID) : value := VObj ActionObject i [].

Definition no_client : Client := mkClient [] [] [] [] [].

(** The jobs of the two sides in the end-to-end example: [J1] running on
    the low side; [J1] done and [J2] running on the high side. *)
Definition low_jobs_client : Client :=
  mkClient [] [] [] [sample_job 1%N "running" empty_result] [].

Definition high_jobs_client : Client :=
  mkClient [] [] []
    [sample_job 1%N "done" empty_result;
     sample_job 2%N "running" (sample_action_object 7%N)] [].

Definition jobs_state : State :=
  mkState
    [mkDiff (sample_job 1%N "running" empty_result)
       (sample_job 1%N "done" empty_result) Job "DIFF"
       [mkDiffAttr "status" (VStr "running") (VStr "done")];
     mkDiff VNone (sample_job 2%N "running" (sample_action_object 7%N))
       Job "NEW" [];
     mkDiff VNone (sample_action_object 7%N) ActionObject "NEW" []].

(** ** The entries of a pass *)

(** A loop over a list whose iterations each return a value or raise. *)
Fixpoint mapM {A B} (f : A -> result B) (xs : list A) : result (list B) :=
  match xs with
  | [] => Ok []
  | x :: xs' =>
      let* y := f x in
      let* ys := mapM f xs' in
      Ok (y :: ys)
  end.

(** The dict that [dictify] builds from objects that all have an [id]. *)
Definition dict_of (objs : list value) : pydict :=
  fold_left
    (fun d obj =>
       match get_id obj with
       | Ok k => dict_setitem k obj d
       | Raise _ => d
       end)
    objs [].

(** The records that the lookup of a collection holds, in the order in
    which a loop over its values meets them. *)
Definition kept_records (objs : list value) : list value :=
  dict_values (dict_of objs).

(** [s] with the entries [ds] after its own. *)
Definition extend (s : State) (ds : list Diff) : State :=
  {| diff_to_sync := diff_to_sync s ++ ds |}.

Section PassEntries.

Context {ne : PyNe value}.

(** The entry that the low-side loop appends for [obj]. *)
Definition low_pair_entry (highs : list value) (obj : value) : result Diff :=
  let* k := get_id obj in
  classify obj (or_None (record_of highs k)).

(** The entry that the logs loop, and the first step of the jobs loop,
    appends for [obj]. *)
Definition high_pair_entry (lows : list value) (obj : value) : result Diff :=
  let* k := get_id obj in
  classify (or_None (record_of lows k)) obj.

(** The one or two entries that the jobs loop appends for [job]. *)
Definition job_entries (lows : list value) (job : value)
  : result (list Diff) :=
  let* d := high_pair_entry lows job in
  let* r := getattr job "result" in
  if negb (isinstance r ActionDataEmpty) then
    let* d' := classify VNone r in Ok [d; d']
  else Ok [d].

(** The entries of a pass, in the order of the five loops. *)
Definition pass_entries (l h : Client) : result (list Diff) :=
  let* ps := mapM (low_pair_entry (projects h)) (kept_records (projects l)) in
  let* rs := mapM (low_pair_entry (requests h)) (kept_records (requests l)) in
  let* cs := mapM (low_pair_entry (code h)) (kept_records (code l)) in
  let* js := mapM (job_entries (jobs l)) (kept_records (jobs h)) in
  let* ls := mapM (high_pair_entry (logs l)) (kept_records (logs h)) in
  Ok (ps ++ rs ++ cs ++ concat js ++ ls).

End PassEntries.

(** ** What a pass enumerates *)

(** [d] holds the low-side record [obj] and what the lookup of the high
    side has under its identity. *)
Definition low_pair (highs : list value) (obj : value) (d : Diff) : Prop :=
  exists k, get_id obj = Ok k /\
            low_obj d = obj /\ high_obj d = or_None (record_of highs k).

(** [d] holds the high-side record [obj] and what the lookup of the low
    side has under its identity. *)
Definition high_pair (lows : list value) (obj : value) (d : Diff) : Prop :=
  exists k, get_id obj = Ok k /\
            high_obj d = obj /\ low_obj d = or_None (record_of lows k).

(** [ds] is the entry of [job], followed by the entry of its result when
    the result is no [ActionDataEmpty]. *)
Definition job_pair (lows : list value) (job : value) (ds : list Diff) : Prop :=
  exists d r,
    high_pair lows job d /\ getattr job "result" = Ok r /\
    ((isinstance r ActionDataEmpty = true /\ ds = [d]) \/
     (isinstance r ActionDataEmpty = false /\
      exists c, get_type r = Ok c /\ ds = [d; mkDiff VNone r c "NEW" []])).

(** The job has a result that is no [ActionDataEmpty]. *)
Definition has_result (job : value) : bool :=
  match getattr job "result" with
  | Ok r => negb (isinstance r ActionDataEmpty)
  | Raise _ => false
  end.

(** The lookup of [others] has nothing under the identity of [obj]. *)
Definition missing_in (others : list value) (obj : value) : bool :=
  match get_id obj with
  | Ok k =>
      match record_of others k with
      | Some _ => false
      | None => true
      end
  | Raise _ => false
  end.

(** The result of [job], when it is no [ActionDataEmpty]. *)
Definition result_objs (job : value) : list value :=
  match getattr job "result" with
  | Ok r => if isinstance r ActionDataEmpty then [] else [r]
  | Raise _ => []
  end.

(** What a pass offers for synchronisation on account of [job]: the job
    when the low side lacks it, and its result when there is one. *)
Definition job_objs (lows : list value) (job : value) : list value :=
  (if missing_in lows job then [job] else []) ++ result_objs job.

(** An entry of a client reconciled with itself: a record paired with
    itself, without differences, or the result of one of its jobs. *)
Definition self_entry (c : Client) (d : Diff) : Prop :=
  (low_obj d = high_obj d /\ merge_state d = "SAME"%string /\
   diff_list d = []) \/
  (low_obj d = VNone /\ merge_state d = "NEW"%string /\
   exists job, In job (jobs c) /\ getattr job "result" = Ok (high_obj d)).

(** ** Consistent entries *)

(** The merge state of [d] is one of the three; [d] lists differences
    exactly when its state is ["DIFF"]; its type tag is the class of its
    present record; and when both records are present they have the same
    [id] and their category has a registered comparator. *)
Definition entry_consistent (d : Diff) : Prop :=
  (merge_state d = "NEW"%string \/ merge_state d = "SAME"%string \/
   merge_state d = "DIFF"%string) /\
  (diff_list d <> [] <-> merge_state d = "DIFF"%string) /\
  get_type (present_record d) = Ok (obj_type d) /\
  (both_present d ->
     In (obj_type d) [SyftLog; Job; UserCode; Request] /\
     exists k, get_id (low_obj d) = Ok k /\ get_id (high_obj d) = Ok k).

(** ** Attributes that differ *)


Section AttrVocabulary.

Context {ne : PyNe value}.


End AttrVocabulary.

(** ** What a comparator reports *)

Section ComparatorVocabulary.

Context {ne : PyNe value}.




End ComparatorVocabulary.

(** ** Well-formed requests *)


(** ** More sample records *)


Definition sample_code (i : UID) (statuses : list (value * value)) : value :=
  VObj UserCode i
    (("status"%string,
      VObj OtherClass 0%N [("status_dict"%string, VDict statuses)]) ::
     map (fun name => (name, VNone)) user_code_basic_attrs).

(** ** Displayed states *)

(** The strings of [l] with [sep] between them. *)
Fixpoint join (sep : string) (l : list string) : string :=
  match l with
  | [] => ""
  | [x] => x
  | x :: l' => x +:+ sep +:+ join sep l'
  end.

(** What a displayed state shows for a record with differences: the name
    of the class and, in brackets, [name=value] for each difference, with a
    comma and a line feed between them. *)
Definition state_text (name : string) (items : list string) : string :=
  name +:+ "(" +:+ join ("," +:+ newline) items +:+ ")".

(** * Properties *)

(** ** Loops *)

Lemma bind_Ok {A B} (m : result A) (k : A -> result B) (b : B) :
  bind m k = Ok b <-> exists a, m = Ok a /\ k a = Ok b.
Proof.
  destruct m as [a|e]; simpl; split.
  - intros Hk. exists a. split; [reflexivity | exact Hk].
  - intros (a' & Ha & Hk). injection Ha as ->. exact Hk.
  - discriminate.
  - intros (a' & Ha & _). discriminate.
Qed.

Lemma for_each_app {A S} (xs ys : list A) (body : A -> S -> result S) (s : S) :
  for_each (xs ++ ys) body s =
  bind (for_each xs body s) (fun s' => for_each ys body s').
Proof.
  revert s. induction xs as [|x xs IH]; intros s; simpl; [reflexivity|].
  destruct (body x s) as [s'|e]; simpl; [apply IH | reflexivity].
Qed.

(** A loop whose body appends the elements that pass a test collects the
    filtered list. *)
Lemma for_each_collect {A} (xs : list A) (body : A -> list A -> result (list A))
    (p : A -> bool) (acc : list A) :
  (forall x acc', In x xs ->
     body x acc' = Ok (if p x then acc' ++ [x] else acc')) ->
  for_each xs body acc = Ok (acc ++ List.filter p xs).
Proof.
  revert acc. induction xs as [|x xs IH]; intros acc Hbody; simpl.
  - by rewrite app_nil_r.
  - rewrite Hbody by (left; reflexivity). simpl.
    rewrite IH by (intros; apply Hbody; right; assumption).
    destruct (p x); [by rewrite <- app_assoc | reflexivity].
Qed.

(** ** The ordered-collection diff *)

Section DiffList.

Context {A : Type} {ne : PyNe A}.

Lemma get_diff_list_eq (low high : list A) :
  get_diff_list low high =
  Ok (List.filter (differs_at low high) (seq 0 (common_length low high)),
      range (length high) (length low),
      range (length low) (length high)).
Proof.
  unfold get_diff_list, common_length.
  assert (Hloop : forall n, n <= length low -> n <= length high ->
    for_each (range 0 n)
      (fun i diff_ids =>
         let* a := getitem low i in
         let* b := getitem high i in
         Ok (if py_ne a b then diff_ids ++ [i] else diff_ids)) [] =
    Ok (List.filter (differs_at low high) (seq 0 n))).
  { intros n Hl Hh.
    rewrite (for_each_collect _ _ (differs_at low high)).
    - unfold range. by rewrite Nat.sub_0_r.
    - intros i acc Hi. unfold range in Hi. apply in_seq in Hi.
      unfold getitem, differs_at.
      destruct (lookup_lt_is_Some_2 low i) as [a ->]; [lia|].
      destruct (lookup_lt_is_Some_2 high i) as [b ->]; [lia|].
      reflexivity. }
  assert (Hmin : Nat.min (length low) (length high) <= length low) by lia.
  assert (Hmin' : Nat.min (length low) (length high) <= length high) by lia.
  destruct (Nat.eqb_spec (length low) (length high)) as [Heq|Hne]; simpl.
  - rewrite Nat.min_l in * by lia. rewrite Hloop by lia. simpl.
    unfold range. rewrite Heq, Nat.sub_diag. reflexivity.
  - destruct (Nat.ltb_spec (length high) (length low)) as [Hlt|Hge].
    + rewrite Nat.min_r in * by lia. rewrite Hloop by lia. simpl.
      unfold range at 3. by replace (length high - length low) with 0 by lia.
    + rewrite Nat.min_l in * by lia. rewrite Hloop by lia. simpl.
      unfold range at 2. by replace (length low - length high) with 0 by lia.
Qed.

Lemma differs_at_ext (low high low' high' : list A) (n i : nat) :
  i < n -> take n low' = take n low -> take n high' = take n high ->
  differs_at low' high' i = differs_at low high i.
Proof.
  intros Hi Hl Hh. unfold differs_at.
  rewrite <- (lookup_take_lt low' n i), <- (lookup_take_lt high' n i) by lia.
  rewrite Hl, Hh, !lookup_take_lt by lia. reflexivity.
Qed.

End DiffList.

(** C3.  The ordered-collection diff always returns; with [n] the length of
    the shorter list, its changed indices are exactly the [i < n] where
    [low[i] != high[i]], listed once each; the indices from [n] on are the
    low-only ones when the low list is longer and the high-only ones when
    the high list is longer, the other list being empty; what lies at or
    beyond [n] is never compared (two pairs of lists with the same lengths
    and the same first [n] elements get the same answer); and
    [[1,2,3]] against [[9,2]] gives [([0], [2], [])]. *)
Theorem get_diff_list_spec :
  (forall (A : Type) (ne : PyNe A) (low high : list A),
     let n := Nat.min (length low) (length high) in
     exists changed low_only high_only,
       get_diff_list low high = Ok (changed, low_only, high_only) /\
       (forall i, In i changed <->
          i < n /\ exists a b,
            low !! i = Some a /\ high !! i = Some b /\ py_ne a b = true) /\
       NoDup changed /\
       (length high < length low ->
          low_only = seq n (length low - n) /\ high_only = []) /\
       (length low < length high ->
          high_only = seq n (length high - n) /\ low_only = []) /\
       (length low = length high -> low_only = [] /\ high_only = []) /\
       (forall low' high' : list A,
          length low' = length low -> length high' = length high ->
          take n low' = take n low -> take n high' = take n high ->
          get_diff_list low' high' = get_diff_list low high)) /\
  get_diff_list (ne := Z_ne) [1; 2; 3]%Z [9; 2]%Z = Ok ([0], [2], []).
Proof.
  split; [|reflexivity].
  intros A ne low high n. rewrite get_diff_list_eq.
  eexists _, _, _. split; [reflexivity|].
  fold n. unfold common_length. fold n.
  assert (Hn : n <= length low /\ n <= length high) by (subst n; lia).
  split; [|split; [|split; [|split; [|split]]]].
  - intros i. rewrite filter_In, in_seq. unfold differs_at. split.
    + intros [Hi Hd]. split; [lia|].
      destruct (low !! i) as [a|]; [|discriminate].
      destruct (high !! i) as [b|]; [|discriminate]. by exists a, b.
    + intros (Hi & a & b & Ha & Hb & Hne). rewrite Ha, Hb. split; [lia | done].
  - apply NoDup_ListNoDup, List.NoDup_filter, List.seq_NoDup.
  - intros Hlt. unfold range. subst n. rewrite Nat.min_r by lia.
    by replace (length high - length low) with 0 by lia.
  - intros Hlt. unfold range. subst n. rewrite Nat.min_l by lia.
    by replace (length low - length high) with 0 by lia.
  - intros Heq. unfold range. rewrite Heq, Nat.sub_diag. done.
  - intros low' high' Hl Hh Htl Hth. rewrite !get_diff_list_eq.
    unfold common_length. rewrite Hl, Hh. fold n. do 3 f_equal.
    apply List.filter_ext_in. intros i Hi. apply in_seq in Hi.
    apply (differs_at_ext _ _ _ _ n); [lia | assumption | assumption].
Qed.

(** ** The keyed-collection diff *)

Section DiffDict.

Context `{Countable K} {V : Type} {ne : PyNe V}.

Lemma get_diff_dict_eq (low high : gmap K V) :
  get_diff_dict low high =
  Ok (List.filter (differs_on low high) (elements (dom low ∩ dom high)),
      elements (dom low ∖ dom high),
      elements (dom high ∖ dom low)).
Proof.
  unfold get_diff_dict.
  rewrite (for_each_collect _ _ (differs_on low high)); [reflexivity|].
  intros k acc Hk. apply list_elem_of_In, elem_of_elements in Hk.
  apply elem_of_intersection in Hk as [Hl Hh].
  apply elem_of_dom in Hl as [a Ha]. apply elem_of_dom in Hh as [b Hb].
  unfold map_getitem, differs_on. rewrite Ha, Hb. reflexivity.
Qed.

End DiffDict.

(** C4.  The keyed-collection diff always returns; its low-only keys are
    the keys of [low] that [high] lacks, its high-only keys the keys of
    [high] that [low] lacks, and its changed keys are exactly the keys of
    both whose values are [!=]; no key is listed twice. *)
Theorem get_diff_dict_spec :
  forall (K : Type) `(Countable K) (V : Type) (ne : PyNe V)
         (low high : gmap K V),
  exists changed low_only high_only : list K,
    get_diff_dict low high = Ok (changed, low_only, high_only) /\
    list_to_set low_only = dom low ∖ dom high /\
    list_to_set high_only = dom high ∖ dom low /\
    (forall k, k ∈ changed <->
       exists a b, low !! k = Some a /\ high !! k = Some b /\
                   py_ne a b = true) /\
    NoDup changed /\ NoDup low_only /\ NoDup high_only.
Proof.
  intros K EqK CntK V ne low high. rewrite get_diff_dict_eq.
  eexists _, _, _. split; [reflexivity|].
  split; [apply leibniz_equiv, list_to_set_elements|].
  split; [apply leibniz_equiv, list_to_set_elements|].
  split; [|split; [|split]].
  - intros k. rewrite list_elem_of_In, filter_In, <- list_elem_of_In.
    rewrite elem_of_elements, elem_of_intersection, !elem_of_dom.
    unfold differs_on. split.
    + intros [[[a Ha] [b Hb]] Hd]. rewrite Ha, Hb in Hd. by exists a, b.
    + intros (a & b & Ha & Hb & Hd). rewrite Ha, Hb. by eauto.
  - apply NoDup_ListNoDup, List.NoDup_filter, NoDup_ListNoDup, NoDup_elements.
  - apply NoDup_elements.
  - apply NoDup_elements.
Qed.

Example get_diff_list_longer_high :
  get_diff_list (ne := Z_ne) [1; 2; 3]%Z [1; 2; 3; 4]%Z = Ok ([], [], [3]).
Proof. reflexivity. Qed.

Example get_diff_dict_keys :
  get_diff_dict (ne := Z_ne)
    (<["a"%string := 1%Z]> (<["b"%string := 2%Z]> ∅) : gmap string Z)
    (<["b"%string := 2%Z]> (<["c"%string := 3%Z]> ∅)) =
  Ok ([], ["a"%string], ["c"%string]).
Proof. vm_compute. reflexivity. Qed.

(** ** The classifier *)

Section ClassifierFacts.

Context {ne : PyNe value}.

Lemma add_obj_classify (low high : value) (st : State) :
  add_obj low high st =
  let* d := classify low high in Ok (append_diff st d).
Proof.
  unfold add_obj, classify.
  destruct (is_None low && is_None high); [reflexivity|].
  destruct (get_type _) as [c|e] eqn:Hc; cbn [bind]; [|reflexivity].
  destruct (is_None low || is_None high); [reflexivity|].
  cbn [bind].
  destruct (call _ low high) as [diffs|e]; cbn [bind]; [|reflexivity].
  by destruct diffs.
Qed.

Lemma get_type_record (v : value) (c : pyclass) :
  get_type v = Ok c ->
  (exists i fields, v = VObj c i fields) /\
  In c [Project; Request; UserCode; Job; SyftLog; ActionObject].
Proof.
  unfold get_type. destruct v as [| | | | | |c' i fields]; try discriminate.
  destruct c'; simpl; intros [= <-]; (split; [by eauto|]); simpl; tauto.
Qed.

Lemma get_type_not_None (v : value) (c : pyclass) :
  get_type v = Ok c -> is_None v = false.
Proof. intros Hc. by apply get_type_record in Hc as [(i & fs & ->) _]. Qed.

(** What a [Diff] that the classifier returns looks like. *)
Lemma classify_inv (low high : value) (d : Diff) :
  classify low high = Ok d ->
  low_obj d = low /\ high_obj d = high /\
  get_type (present_record d) = Ok (obj_type d) /\
  ((is_None low || is_None high = true /\
    is_None low && is_None high = false /\
    merge_state d = "NEW"%string /\ diff_list d = []) \/
   (is_None low = false /\ is_None high = false /\
    exists f, func_dict_get (class_name (obj_type d)) = Some f /\
              f low high = Ok (diff_list d) /\
              merge_state d = state_of (diff_list d))).
Proof.
  unfold classify.
  destruct (is_None low) eqn:Hl, (is_None high) eqn:Hh; simpl;
    try discriminate.
  - destruct (get_type high) as [c|] eqn:Hc; simpl; [|discriminate].
    intros [= <-]. unfold present_record. simpl. rewrite Hl. auto 10.
  - destruct (get_type low) as [c|] eqn:Hc; simpl; [|discriminate].
    intros [= <-]. unfold present_record. simpl. rewrite Hl. auto 10.
  - destruct (get_type low) as [c|] eqn:Hc; simpl; [|discriminate].
    destruct (func_dict_get (class_name c)) as [f|] eqn:Hf; simpl;
      [|discriminate].
    destruct (f low high) as [diffs|] eqn:Hd; simpl; [|discriminate].
    intros [= <-]. unfold present_record. simpl. rewrite Hl.
    repeat split; try done. right. repeat split; try done. by exists f.
Qed.

End ClassifierFacts.

(** ** Objects to synchronise *)

Lemma objs_to_sync_fold (ds : list Diff) (acc : list value) :
  fold_left
    (fun objs diff =>
       if String.eqb (merge_state diff) "NEW"
       then objs ++ [get_obj diff]
       else objs) ds acc =
  acc ++ map present_record (List.filter is_new ds).
Proof.
  revert acc. induction ds as [|d ds IH]; intros acc; simpl.
  - by rewrite app_nil_r.
  - rewrite IH. unfold is_new at 2, get_obj, present_record.
    destruct (String.eqb (merge_state d) "NEW"); [|reflexivity].
    simpl. rewrite <- app_assoc. simpl.
    by destruct (is_None (low_obj d)).
Qed.

Lemma objs_to_sync_eq (st : State) :
  objs_to_sync st = map present_record (List.filter is_new (diff_to_sync st)).
Proof. unfold objs_to_sync. by rewrite objs_to_sync_fold. Qed.

Lemma objs_to_sync_append (st : State) (d : Diff) :
  objs_to_sync (append_diff st d) =
  objs_to_sync st ++ (if is_new d then [present_record d] else []).
Proof.
  rewrite !objs_to_sync_eq. simpl.
  rewrite List.filter_app, map_app. simpl. by destruct (is_new d).
Qed.

(** C5.  [objs_to_sync] returns, in entry order, the present record
    ([low_obj] when present, otherwise [high_obj]) of the entries whose
    merge state is ["NEW"], and nothing else: an entry in state ["SAME"] or
    ["DIFF"] adds nothing to the list, an entry in state ["NEW"] adds its
    present record at the end. *)
Theorem objs_to_sync_spec :
  forall st : State,
    objs_to_sync st =
      map present_record
        (List.filter (fun d => String.eqb (merge_state d) "NEW")
           (diff_to_sync st)) /\
    (forall d, merge_state d = "SAME"%string \/ merge_state d = "DIFF"%string ->
       objs_to_sync (append_diff st d) = objs_to_sync st) /\
    (forall d, merge_state d = "NEW"%string ->
       objs_to_sync (append_diff st d) = objs_to_sync st ++ [present_record d]).
Proof.
  intros st. split; [apply objs_to_sync_eq|]. split; intros d Hd.
  - rewrite objs_to_sync_append. unfold is_new.
    destruct Hd as [-> | ->]; simpl; by rewrite app_nil_r.
  - rewrite objs_to_sync_append. unfold is_new. by rewrite Hd.
Qed.

(** ** States built by [add_obj] *)

Section Built.

Context {ne : PyNe value}.

Lemma add_obj_inv (low high : value) (st st' : State) :
  add_obj low high st = Ok st' ->
  exists d, classify low high = Ok d /\ st' = append_diff st d.
Proof.
  rewrite add_obj_classify. intros Hb. apply bind_Ok in Hb as (d & Hd & Hs).
  exists d. split; [assumption | congruence].
Qed.

Lemma state_of_cases (diffs : list DiffAttr) :
  (diffs = [] /\ state_of diffs = "SAME"%string) \/
  (diffs <> [] /\ state_of diffs = "DIFF"%string).
Proof. destruct diffs; [left | right]; by split. Qed.

Lemma classify_presence (low high : value) (d : Diff) :
  classify low high = Ok d -> presence_invariant d.
Proof.
  intros Hd. apply classify_inv in Hd as (Hl & Hh & _ & Hcase).
  unfold presence_invariant, exactly_one_absent, both_present, both_absent.
  rewrite Hl, Hh.
  destruct Hcase as [(Hor & Hand & -> & _) | (Hnl & Hnh & f & _ & _ & ->)].
  - destruct (is_None low), (is_None high); try discriminate;
      (split; [done|]); (split; [|intros [? ?]; discriminate]);
      (split; [intros [? ?]; discriminate | intros [?|?]; discriminate]).
  - rewrite Hnl, Hnh.
    split; [split; [discriminate|]|split; [|intros [? ?]; discriminate]].
    + destruct (state_of_cases (diff_list d)) as [[_ ->]|[_ ->]]; discriminate.
    + split; [|done]. intros _.
      destruct (state_of_cases (diff_list d)) as [[_ ->]|[_ ->]]; auto.
Qed.

(** A classified entry in state ["NEW"] holds exactly one record, and that
    record is an instance of a known class. *)
Lemma classify_new (low high : value) (d : Diff) :
  classify low high = Ok d -> merge_state d = "NEW"%string ->
  exactly_one_absent d /\ get_obj d = present_record d /\
  is_record (present_record d).
Proof.
  intros Hd Hnew. pose proof (classify_presence _ _ _ Hd) as (Hone & _ & _).
  split; [by apply Hone|]. split.
  - unfold get_obj, present_record. rewrite Hnew. simpl.
    by destruct (is_None (low_obj d)).
  - apply classify_inv in Hd as (_ & _ & Ht & _).
    apply get_type_record in Ht as [(i & fs & Hv) Hin].
    by exists (obj_type d), i, fs.
Qed.

Lemma built_entries (st : State) :
  built st -> Forall entry_ok (diff_to_sync st).
Proof.
  induction 1 as [|low high st st' _ IH Hadd]; [constructor|].
  apply add_obj_inv in Hadd as (d & Hd & ->). simpl.
  apply Forall_app. split; [assumption|]. constructor; [|constructor].
  split; [by eapply classify_presence|].
  intros Hnew. by eapply classify_new.
Qed.

End Built.

(** ** The identity-keyed lookup *)

Lemma record_of_snoc (objs : list value) (v : value) (k' k : UID) :
  get_id v = Ok k' ->
  record_of (objs ++ [v]) k =
  if (k' =? k)%N then Some v else record_of objs k.
Proof.
  intros Hv. induction objs as [|u objs IH]; simpl.
  - by rewrite Hv.
  - rewrite IH. destruct (k' =? k)%N; [reflexivity|].
    reflexivity.
Qed.

Lemma record_of_Some (objs : list value) (k : UID) (v : value) :
  record_of objs k = Some v -> In v objs /\ get_id v = Ok k.
Proof.
  induction objs as [|u objs IH]; simpl; [discriminate|].
  destruct (record_of objs k) as [w|].
  - intros [= ->]. destruct IH as [Hin Hid]; [reflexivity|]. auto.
  - destruct (get_id u) as [k'|] eqn:Hu; [|discriminate].
    destruct (N.eqb_spec k' k) as [->|]; [|discriminate].
    intros [= ->]. auto.
Qed.

Lemma record_of_In (objs : list value) (k : UID) (v : value) :
  In v objs -> get_id v = Ok k -> exists w, record_of objs k = Some w.
Proof.
  induction objs as [|u objs IH]; simpl; [tauto|].
  intros [->|Hin] Hid.
  - destruct (record_of objs k) as [w|]; [by eauto|].
    rewrite Hid, N.eqb_refl. by eauto.
  - destruct (IH Hin Hid) as [w ->]. by eauto.
Qed.

Lemma dict_get_setitem (d : pydict) (k k' : UID) (v : value) :
  dict_get (dict_setitem k v d) k' =
  if (k =? k')%N then Some v else dict_get d k'.
Proof.
  induction d as [|[k0 v0] d IH]; simpl; [reflexivity|].
  destruct (N.eqb_spec k0 k) as [->|Hne]; simpl.
  - by destruct (k =? k')%N.
  - rewrite IH. destruct (N.eqb_spec k0 k') as [->|]; [|reflexivity].
    by destruct (N.eqb_spec k k').
Qed.

Lemma dict_setitem_keys (d : pydict) (k : UID) (v : value) :
  map fst (dict_setitem k v d) =
  if dict_contains k d then map fst d else map fst d ++ [k].
Proof.
  unfold dict_contains. induction d as [|[k0 v0] d IH]; simpl; [reflexivity|].
  destruct (N.eqb_spec k0 k) as [->|Hne]; simpl; [reflexivity|].
  rewrite IH. by destruct (dict_get d k).
Qed.

Lemma dict_get_None (d : pydict) (k : UID) :
  dict_get d k = None <-> ~ In k (map fst d).
Proof.
  induction d as [|[k0 v0] d IH]; simpl; [tauto|].
  destruct (N.eqb_spec k0 k) as [->|Hne].
  - split; [discriminate | tauto].
  - rewrite IH. tauto.
Qed.

Lemma dict_get_values (d : pydict) (v : value) :
  List.NoDup (map fst d) ->
  In v (dict_values d) <-> exists k, dict_get d k = Some v.
Proof.
  unfold dict_values. induction d as [|[k0 v0] d IH]; simpl; intros Hnd.
  - split; [tauto | intros [k Hk]; discriminate].
  - inversion Hnd as [|? ? Hk0 Hnd']; subst. rewrite (IH Hnd'). split.
    + intros [<-|[k Hk]].
      * exists k0. by rewrite N.eqb_refl.
      * exists k. destruct (N.eqb_spec k0 k) as [->|]; [|assumption].
        apply dict_get_None in Hk0. congruence.
    + intros [k Hk]. destruct (N.eqb_spec k0 k) as [->|].
      * left. congruence.
      * right. by exists k.
Qed.

(** What [dictify] returns: the keys are the identities of the list, each
    once, and the value under a key is the last record with that identity. *)
Lemma dictify_spec (objs : list value) (d : pydict) :
  dictify objs = Ok d ->
  List.NoDup (map fst d) /\ forall k, dict_get d k = record_of objs k.
Proof.
  unfold dictify. revert d. induction objs as [|v objs IH] using rev_ind;
    intros d.
  - simpl. intros [= <-]. split; [constructor | reflexivity].
  - rewrite for_each_app. intros Hb.
    apply bind_Ok in Hb as (d0 & Hd0 & Hb). simpl in Hb.
    apply bind_Ok in Hb as (d1 & Hb & Hd1). injection Hd1 as <-.
    apply bind_Ok in Hb as (k & Hk & Hd1). injection Hd1 as <-.
    destruct (IH _ Hd0) as [Hnd Hget]. split.
    + rewrite dict_setitem_keys. unfold dict_contains.
      destruct (dict_get d0 k) eqn:Hc; [assumption|].
      apply dict_get_None in Hc.
      apply NoDup_ListNoDup, NoDup_app.
      split; [by apply NoDup_ListNoDup|]. split; [|apply NoDup_singleton].
      intros x Hx Hx'. apply list_elem_of_singleton in Hx'. subst x.
      apply Hc. by apply list_elem_of_In.
    + intros k'. rewrite dict_get_setitem, (record_of_snoc _ _ k) by assumption.
      by rewrite Hget.
Qed.

(** ** The loops of the builder *)

(** A loop that returns keeps an invariant [P] of its state, moves the state
    along a preorder [R], and leaves for each element what its own iteration
    established, when later iterations cannot undo it. *)
Lemma for_each_spec {A S} (P : S -> Prop) (R : S -> S -> Prop)
    (Q : A -> S -> Prop) (xs : list A) (body : A -> S -> result S) :
  (forall s, R s s) ->
  (forall a b c, R a b -> R b c -> R a c) ->
  (forall x s s', Q x s -> R s s' -> Q x s') ->
  (forall x s s', In x xs -> P s -> body x s = Ok s' ->
     P s' /\ R s s' /\ Q x s') ->
  forall s s', P s -> for_each xs body s = Ok s' ->
  P s' /\ R s s' /\ forall x, In x xs -> Q x s'.
Proof.
  intros Hrefl Htrans Hmono. induction xs as [|x xs IH]; intros Hbody s s' Hs.
  - simpl. intros [= <-]. repeat split; [assumption | apply Hrefl | tauto].
  - simpl. intros Hb. apply bind_Ok in Hb as (s1 & H1 & Hrest).
    destruct (Hbody x s s1) as (Hp1 & Hr1 & Hq1); [by left | assumption ..|].
    destruct (IH (fun y a b Hy => Hbody y a b (or_intror Hy)) s1 s' Hp1 Hrest)
      as (Hp & Hr & Hq).
    split; [assumption|]. split; [by eapply Htrans|].
    intros y [<-|Hy]; [by eapply Hmono | by apply Hq].
Qed.

Lemma extends_refl (s : State) : extends s s.
Proof. exists []. by rewrite app_nil_r. Qed.

Lemma extends_trans (a b c : State) : extends a b -> extends b c -> extends a c.
Proof.
  intros [ds Hb] [ds' Hc]. exists (ds ++ ds'). by rewrite Hc, Hb, app_assoc.
Qed.

Lemma extends_append (s : State) (d : Diff) : extends s (append_diff s d).
Proof. by exists [d]. Qed.

Lemma extends_In (s s' : State) (d : Diff) :
  extends s s' -> In d (diff_to_sync s) -> In d (diff_to_sync s').
Proof. intros [ds ->] Hd. apply in_or_app. by left. Qed.

Lemma In_append_diff (s : State) (d : Diff) : In d (diff_to_sync (append_diff s d)).
Proof. simpl. apply in_or_app. right. by left. Qed.

Section BuilderFacts.

Context {ne : PyNe value}.

Lemma classified_mono (low high : value) (s s' : State) :
  classified low high s -> extends s s' -> classified low high s'.
Proof. intros (d & Hd & Hin) Hext. exists d. eauto using extends_In. Qed.

Lemma add_obj_step (low high : value) (s s' : State) :
  built s -> add_obj low high s = Ok s' ->
  built s' /\ extends s s' /\ classified low high s'.
Proof.
  intros Hs Hadd. split; [by econstructor|].
  apply add_obj_inv in Hadd as (d & Hd & ->).
  split; [apply extends_append|]. exists d. split; [assumption|].
  apply In_append_diff.
Qed.

Lemma dict_getitem_contains (d : pydict) (k : UID) :
  (if dict_contains k d then dict_getitem d k else Ok VNone) =
  Ok (or_None (dict_get d k)).
Proof.
  unfold dict_contains, dict_getitem. by destruct (dict_get d k).
Qed.

Lemma sync_low_side_spec (low_side high_side : pydict) (s s' : State) :
  built s -> sync_low_side low_side high_side s = Ok s' ->
  built s' /\ extends s s' /\
  forall obj, In obj (dict_values low_side) -> low_entry high_side obj s'.
Proof.
  unfold sync_low_side.
  apply (for_each_spec built extends (low_entry high_side));
    [apply extends_refl | apply extends_trans | |].
  - intros obj a b (k & Hk & Hc) Hext. exists k. eauto using classified_mono.
  - intros obj a b _ Ha Hb. apply bind_Ok in Hb as (k & Hk & Hb).
    unfold low_entry, dict_contains, dict_getitem in *.
    destruct (dict_get high_side k) as [h|] eqn:Hh; simpl in Hb;
      apply add_obj_step in Hb as (? & ? & ?); try assumption;
      (split; [assumption|]); (split; [assumption|]);
      exists k; rewrite Hh; by split.
Qed.

Lemma sync_high_obj_spec (low_side : pydict) (obj : value) (s s' : State) :
  built s -> sync_high_obj low_side obj s = Ok s' ->
  built s' /\ extends s s' /\ high_entry low_side obj s'.
Proof.
  unfold sync_high_obj. intros Ha Hb. apply bind_Ok in Hb as (k & Hk & Hb).
  unfold high_entry, dict_contains, dict_getitem in *.
  destruct (dict_get low_side k) as [l|] eqn:Hl; simpl in Hb;
    apply add_obj_step in Hb as (? & ? & ?); try assumption;
    (split; [assumption|]); (split; [assumption|]);
    exists k; rewrite Hl; by split.
Qed.

Lemma sync_jobs_spec (low_side high_side : pydict) (s s' : State) :
  built s -> sync_jobs low_side high_side s = Ok s' ->
  built s' /\ extends s s' /\
  forall job, In job (dict_values high_side) ->
    high_entry low_side job s' /\ result_entry job s'.
Proof.
  unfold sync_jobs.
  apply (for_each_spec built extends
           (fun job s => high_entry low_side job s /\ result_entry job s));
    [apply extends_refl | apply extends_trans | |].
  - intros job a b [(k & Hk & Hc) (r & Hr & Hres)] Hext. split.
    + exists k. eauto using classified_mono.
    + exists r. split; [assumption|]. eauto using classified_mono.
  - intros job a b _ Ha Hb. apply bind_Ok in Hb as (s1 & H1 & Hb).
    apply sync_high_obj_spec in H1 as (Hb1 & He1 & (k & Hk & Hc1));
      [|assumption].
    apply bind_Ok in Hb as (r & Hr & Hb).
    destruct (isinstance r ActionDataEmpty) eqn:Hempty; simpl in Hb.
    + injection Hb as <-. repeat split; try assumption.
      * by exists k.
      * exists r. split; [assumption | congruence].
    + apply add_obj_step in Hb as (Hb2 & He2 & Hc2); [|assumption].
      split; [assumption|]. split; [by eapply extends_trans|]. split.
      * exists k. eauto using classified_mono.
      * exists r. by split.
Qed.

Lemma sync_logs_spec (low_side high_side : pydict) (s s' : State) :
  built s -> sync_logs low_side high_side s = Ok s' ->
  built s' /\ extends s s' /\
  forall log, In log (dict_values high_side) -> high_entry low_side log s'.
Proof.
  unfold sync_logs.
  apply (for_each_spec built extends (high_entry low_side));
    [apply extends_refl | apply extends_trans | |].
  - intros obj a b (k & Hk & Hc) Hext. exists k. eauto using classified_mono.
  - intros obj a b _ Ha Hb. by apply sync_high_obj_spec.
Qed.

End BuilderFacts.

(** ** A whole pass *)

Lemma dictify_ids (objs : list value) (d : pydict) :
  dictify objs = Ok d -> forall v, In v objs -> exists k, get_id v = Ok k.
Proof.
  unfold dictify. intros Hd.
  apply (for_each_spec (fun _ => True) (fun _ _ => True)
           (fun v (_ : pydict) => exists k, get_id v = Ok k)) in Hd;
    try done.
  - tauto.
  - intros v a b _ _ Hb. apply bind_Ok in Hb as (k & Hk & _). by eauto.
Qed.

Section PassFacts.

Context {ne : PyNe value}.

Lemma classified_entry_for (low high : value) (st : State) :
  classified low high st -> entry_for low high st.
Proof.
  intros (d & Hd & Hin). exists d. split; [assumption|].
  apply classify_inv in Hd as (Hl & Hh & _ & Hcase).
  split; [assumption|]. split; [assumption|].
  destruct Hcase as [(Hor & _ & Hnew & Hdl) | (Hnl & Hnh & f & _ & _ & Hst)].
  - split; [by auto | congruence].
  - rewrite Hnl, Hnh. split; [discriminate|]. intros _. rewrite Hst.
    apply state_of_cases.
Qed.

Lemma low_side_classified_covered (lows highs : list value) (st : State) :
  low_side_classified lows highs st -> low_side_covered lows highs st.
Proof.
  intros Hall v Hv. destruct (Hall v Hv) as (k & v' & Hk & Hv' & Hc).
  exists k, v'. eauto using classified_entry_for.
Qed.

Lemma high_side_classified_covered (lows highs : list value) (st : State) :
  high_side_classified lows highs st -> high_side_covered lows highs st.
Proof.
  intros Hall w Hw. destruct (Hall w Hw) as (k & w' & Hk & Hw' & Hc).
  exists k, w'. eauto using classified_entry_for.
Qed.

Lemma low_entries_classified (lows highs : list value) (dl dh : pydict)
    (st : State) :
  dictify lows = Ok dl -> dictify highs = Ok dh ->
  (forall obj, In obj (dict_values dl) -> low_entry dh obj st) ->
  low_side_classified lows highs st.
Proof.
  intros Hl Hh Hall v Hv.
  destruct (dictify_ids _ _ Hl v Hv) as [k Hk].
  destruct (record_of_In _ _ _ Hv Hk) as [v' Hv'].
  destruct (dictify_spec _ _ Hl) as [Hnd Hgl].
  destruct (dictify_spec _ _ Hh) as [_ Hgh].
  exists k, v'. split; [assumption|]. split; [assumption|].
  destruct (Hall v') as (k' & Hk' & Hc).
  { apply dict_get_values; [assumption|]. exists k. by rewrite Hgl. }
  apply record_of_Some in Hv' as [_ Hid]. rewrite Hid in Hk'.
  injection Hk' as <-. by rewrite Hgh in Hc.
Qed.

Lemma high_entries_classified (lows highs : list value) (dl dh : pydict)
    (st : State) :
  dictify lows = Ok dl -> dictify highs = Ok dh ->
  (forall obj, In obj (dict_values dh) -> high_entry dl obj st) ->
  high_side_classified lows highs st.
Proof.
  intros Hl Hh Hall w Hw.
  destruct (dictify_ids _ _ Hh w Hw) as [k Hk].
  destruct (record_of_In _ _ _ Hw Hk) as [w' Hw'].
  destruct (dictify_spec _ _ Hh) as [Hnd Hgh].
  destruct (dictify_spec _ _ Hl) as [_ Hgl].
  exists k, w'. split; [assumption|]. split; [assumption|].
  destruct (Hall w') as (k' & Hk' & Hc).
  { apply dict_get_values; [assumption|]. exists k. by rewrite Hgh. }
  apply record_of_Some in Hw' as [_ Hid]. rewrite Hid in Hk'.
  injection Hk' as <-. by rewrite Hgl in Hc.
Qed.

(** What a pass that returns has done. *)
Lemma get_sync_state_inv (l h : Client) (st : State) :
  get_sync_state l h = Ok st ->
  built st /\
  low_side_classified (projects l) (projects h) st /\
  low_side_classified (requests l) (requests h) st /\
  low_side_classified (code l) (code h) st /\
  high_side_classified (jobs l) (jobs h) st /\
  job_results_classified (jobs h) st /\
  high_side_classified (logs l) (logs h) st.
Proof.
  unfold get_sync_state. intros Hb.
  apply bind_Ok in Hb as (lp & Hlp & Hb). apply bind_Ok in Hb as (hp & Hhp & Hb).
  apply bind_Ok in Hb as (s1 & H1 & Hb).
  apply bind_Ok in Hb as (lr & Hlr & Hb). apply bind_Ok in Hb as (hr & Hhr & Hb).
  apply bind_Ok in Hb as (s2 & H2 & Hb).
  apply bind_Ok in Hb as (lc & Hlc & Hb). apply bind_Ok in Hb as (hc & Hhc & Hb).
  apply bind_Ok in Hb as (s3 & H3 & Hb).
  apply bind_Ok in Hb as (lj & Hlj & Hb). apply bind_Ok in Hb as (hj & Hhj & Hb).
  apply bind_Ok in Hb as (s4 & H4 & Hb).
  apply bind_Ok in Hb as (ll & Hll & Hb). apply bind_Ok in Hb as (hl & Hhl & H5).
  apply sync_low_side_spec in H1 as (B1 & E1 & Q1); [|constructor].
  apply sync_low_side_spec in H2 as (B2 & E2 & Q2); [|assumption].
  apply sync_low_side_spec in H3 as (B3 & E3 & Q3); [|assumption].
  apply sync_jobs_spec in H4 as (B4 & E4 & Q4); [|assumption].
  apply sync_logs_spec in H5 as (B5 & E5 & Q5); [|assumption].
  assert (E35 : extends s3 st) by eauto using extends_trans.
  assert (E25 : extends s2 st) by eauto using extends_trans.
  assert (E15 : extends s1 st) by eauto using extends_trans.
  split; [assumption|].
  assert (Hlow : forall dh obj s, low_entry dh obj s -> extends s st ->
                                  low_entry dh obj st).
  { intros dh obj s (k & Hk & Hc) He. exists k. eauto using classified_mono. }
  split; [eapply low_entries_classified; by eauto|].
  split; [eapply low_entries_classified; by eauto|].
  split; [eapply low_entries_classified; by eauto|].
  split; [|split].
  - eapply high_entries_classified; eauto.
    intros obj Hobj. destruct (Q4 obj Hobj) as [(k & Hk & Hc) _].
    exists k. eauto using classified_mono.
  - intros k job Hjob. destruct (dictify_spec _ _ Hhj) as [Hnd Hg].
    destruct (Q4 job) as [_ (r & Hr & Hres)].
    { apply dict_get_values; [assumption|]. exists k. by rewrite Hg. }
    exists r. split; [assumption|]. eauto using classified_mono.
  - eapply high_entries_classified; by eauto.
Qed.

End PassFacts.

Example get_sync_state_jobs :
  get_sync_state (ne := value_ne) low_jobs_client high_jobs_client =
  Ok jobs_state.
Proof. reflexivity. Qed.

Example objs_to_sync_jobs :
  objs_to_sync jobs_state =
  [sample_job 2%N "running" (sample_action_object 7%N);
   sample_action_object 7%N].
Proof. reflexivity. Qed.

(** ** The state builder: which identities a pass classifies *)

(** C1 (amended).  A pass that returns has an entry for every identity of
    the low side's projects, requests and user codes: the low-side record of
    that identity paired with the high-side record of the same identity when
    the high side has one, and with [None], in state ["NEW"], when it has
    none.  For jobs and logs the pass enumerates the high side instead:
    every identity of the high side's jobs and logs has an entry, the
    high-side record paired with the low-side record of the same identity,
    or with [None], in state ["NEW"], when the low side has none. *)
Theorem get_sync_state_coverage :
  forall (ne : PyNe value) (l h : Client) (st : State),
    get_sync_state l h = Ok st ->
    low_side_covered (projects l) (projects h) st /\
    low_side_covered (requests l) (requests h) st /\
    low_side_covered (code l) (code h) st /\
    high_side_covered (jobs l) (jobs h) st /\
    high_side_covered (logs l) (logs h) st.
Proof.
  intros ne l h st Hst.
  apply get_sync_state_inv in Hst as (_ & Hp & Hr & Hc & Hj & _ & Hl).
  repeat split;
    (by apply low_side_classified_covered) ||
    (by apply high_side_classified_covered).
Qed.

Lemma get_sync_state_coverage_witness :
  low_side_covered (projects low_jobs_client) (projects high_jobs_client)
    jobs_state /\
  low_side_covered (requests low_jobs_client) (requests high_jobs_client)
    jobs_state /\
  low_side_covered (code low_jobs_client) (code high_jobs_client) jobs_state /\
  high_side_covered (jobs low_jobs_client) (jobs high_jobs_client) jobs_state /\
  high_side_covered (logs low_jobs_client) (logs high_jobs_client) jobs_state.
Proof.
  apply (get_sync_state_coverage value_ne low_jobs_client high_jobs_client).
  reflexivity.
Defined.

(** A job that only the low side has gets no entry: the pass returns the
    empty state, so the job's identity is not covered. *)
Lemma low_only_job_not_covered :
  get_sync_state (ne := value_ne)
    (mkClient [] [] [] [sample_job 1%N "running" empty_result] [])
    no_client = Ok (mkState []) /\
  ~ low_side_covered [sample_job 1%N "running" empty_result] []
      (mkState []).
Proof.
  split; [reflexivity|]. intros Hcov.
  destruct (Hcov (sample_job 1%N "running" empty_result))
    as (k & v' & _ & _ & d & Hin & _); [by left|].
  exact Hin.
Qed.

(** ** The results of the high-side jobs *)

Lemma classified_result (ne : PyNe value) (r : value) (st : State) :
  classified VNone r st ->
  is_record r /\
  exists c, get_type r = Ok c /\
            In (mkDiff VNone r c "NEW" []) (diff_to_sync st).
Proof.
  intros (d & Hd & Hin). unfold classify in Hd. simpl in Hd.
  destruct (is_None r); [discriminate|].
  destruct (get_type r) as [c|] eqn:Hc; simpl in Hd; [|discriminate].
  injection Hd as <-. split; [|by eauto].
  apply get_type_record in Hc as [(i & fs & ->) Hin']. by exists c, i, fs.
Qed.

Lemma objs_to_sync_In (st : State) (d : Diff) :
  In d (diff_to_sync st) -> merge_state d = "NEW"%string ->
  In (present_record d) (objs_to_sync st).
Proof.
  intros Hin Hnew. rewrite objs_to_sync_eq. apply in_map, filter_In.
  split; [assumption|]. unfold is_new. by rewrite Hnew.
Qed.

(** In a pass that returns, every job the high side's lookup holds has a
    [result], and a result that is no [ActionDataEmpty] has its own entry,
    with no low-side object, in state ["NEW"]. *)
Lemma job_results_entries (ne : PyNe value) (l h : Client) (st : State) :
  get_sync_state l h = Ok st ->
  forall k job, record_of (jobs h) k = Some job ->
    exists r, getattr job "result" = Ok r /\
      (isinstance r ActionDataEmpty = false ->
         is_record r /\
         exists c, get_type r = Ok c /\
                   In (mkDiff VNone r c "NEW" []) (diff_to_sync st)).
Proof.
  intros Hst k job Hjob.
  apply get_sync_state_inv in Hst as (_ & _ & _ & _ & _ & Hres & _).
  destruct (Hres k job Hjob) as (r & Hr & Hc). exists r.
  split; [assumption|]. intros Hempty.
  by apply (classified_result ne r st (Hc Hempty)).
Qed.

(** C9 (amended).  In a pass that returns, for every job the high side's
    lookup holds whose [result] is no [ActionDataEmpty] and is a record (an
    instance of a class [get_type] knows), the state has the additional
    entry with no low-side object, the result as high-side object, state
    ["NEW"] and no differences, and [objs_to_sync] returns the result; this
    does not depend on the entry of the job itself. *)
Theorem job_results_in_state :
  forall (ne : PyNe value) (l h : Client) (st : State),
    get_sync_state l h = Ok st ->
    forall k job r,
      record_of (jobs h) k = Some job ->
      getattr job "result" = Ok r ->
      isinstance r ActionDataEmpty = false ->
      is_record r ->
      (exists c, get_type r = Ok c /\
         In (mkDiff VNone r c "NEW" []) (diff_to_sync st)) /\
      In r (objs_to_sync st).
Proof.
  intros ne l h st Hst k job r Hjob Hr Hempty _.
  destruct (job_results_entries ne l h st Hst k job Hjob) as (r' & Hr' & Hc).
  rewrite Hr in Hr'. injection Hr' as <-.
  destruct (Hc Hempty) as (_ & c & Ht & Hin).
  split; [by eauto|].
  by apply (objs_to_sync_In st (mkDiff VNone r c "NEW" [])).
Qed.

Lemma job_results_in_state_witness :
  (exists c, get_type (sample_action_object 7%N) = Ok c /\
     In (mkDiff VNone (sample_action_object 7%N) c "NEW" [])
        (diff_to_sync jobs_state)) /\
  In (sample_action_object 7%N) (objs_to_sync jobs_state).
Proof.
  apply (job_results_in_state value_ne low_jobs_client high_jobs_client
           jobs_state eq_refl 2%N
           (sample_job 2%N "running" (sample_action_object 7%N)));
    try reflexivity.
  exists ActionObject, 7%N, []. split; [reflexivity|]. simpl. tauto.
Defined.

(** A high-side job whose result is [None]: [None] is no
    [ActionDataEmpty], the builder calls [add_obj(None, None)], and the
    pass raises instead of returning a state with an entry for the result. *)
Lemma job_result_None_raises :
  isinstance VNone ActionDataEmpty = false /\
  get_sync_state (ne := value_ne) no_client
    (mkClient [] [] [] [sample_job 1%N "running" VNone] []) =
    Raise invalid_pair /\
  ~ exists st,
      get_sync_state (ne := value_ne) no_client
        (mkClient [] [] [] [sample_job 1%N "running" VNone] []) = Ok st.
Proof.
  split; [reflexivity|]. split; [reflexivity|]. intros [st Hst]. discriminate.
Qed.

(** ** The classifier: merge states *)

Lemma add_obj_one_absent (ne : PyNe value) (r : value) (c : pyclass)
    (st : State) :
  get_type r = Ok c ->
  add_obj r VNone st = Ok (append_diff st (mkDiff r VNone c "NEW" [])) /\
  add_obj VNone r st = Ok (append_diff st (mkDiff VNone r c "NEW" [])).
Proof.
  intros Hc. pose proof (get_type_not_None _ _ Hc) as Hn.
  rewrite !add_obj_classify. unfold classify. simpl. rewrite Hn. simpl.
  rewrite Hc. simpl. done.
Qed.

Lemma add_obj_both_present (ne : PyNe value) (low high : value) (c : pyclass)
    (f : comparator) (diffs : list DiffAttr) (st : State) :
  get_type low = Ok c -> is_None high = false ->
  func_dict_get (class_name c) = Some f ->
  f low high = Ok diffs ->
  add_obj low high st =
    Ok (append_diff st (mkDiff low high c (state_of diffs) diffs)).
Proof.
  intros Hc Hh Hf Hd. pose proof (get_type_not_None _ _ Hc) as Hl.
  rewrite add_obj_classify. unfold classify.
  rewrite Hl, Hh. simpl. rewrite Hc. simpl. rewrite Hf. simpl.
  by rewrite Hd.
Qed.

(** C2.  When exactly one of the two objects is absent and the other is a
    record, [add_obj] appends a [Diff] in state ["NEW"] with an empty
    difference list.  When both are present and the category of the low
    object has a registered comparator that returns a list of differences,
    [add_obj] appends a [Diff] with that list, in state ["SAME"] when the
    list is empty and ["DIFF"] when it is not. *)
Theorem add_obj_merge_state :
  forall (ne : PyNe value) (st : State),
    (forall r c, get_type r = Ok c ->
       add_obj r VNone st = Ok (append_diff st (mkDiff r VNone c "NEW" [])) /\
       add_obj VNone r st = Ok (append_diff st (mkDiff VNone r c "NEW" []))) /\
    (forall low high c f diffs,
       get_type low = Ok c -> is_None high = false ->
       func_dict_get (class_name c) = Some f ->
       f low high = Ok diffs ->
       exists merge_state,
         add_obj low high st =
           Ok (append_diff st (mkDiff low high c merge_state diffs)) /\
         (diffs = [] -> merge_state = "SAME"%string) /\
         (diffs <> [] -> merge_state = "DIFF"%string)).
Proof.
  intros ne st. split.
  - intros r c Hc. by apply add_obj_one_absent.
  - intros low high c f diffs Hc Hh Hf Hd. exists (state_of diffs).
    split; [by apply (add_obj_both_present ne low high c f)|].
    destruct (state_of_cases diffs) as [[-> ->]|[Hne' ->]]; by split.
Qed.

Lemma add_obj_merge_state_witness :
  (add_obj (ne := value_ne) (sample_log 1%N "a" "b") VNone (mkState []) =
     Ok (mkState [mkDiff (sample_log 1%N "a" "b") VNone SyftLog "NEW" []])) /\
  (exists merge_state,
     add_obj (ne := value_ne) (sample_log 1%N "a" "b") (sample_log 1%N "a" "c")
       (mkState []) =
       Ok (append_diff (mkState [])
             (mkDiff (sample_log 1%N "a" "b") (sample_log 1%N "a" "c")
                SyftLog merge_state
                [mkDiffAttr "stderr" (VStr "b") (VStr "c")])) /\
     ([mkDiffAttr "stderr" (VStr "b") (VStr "c")] = [] ->
        merge_state = "SAME"%string) /\
     ([mkDiffAttr "stderr" (VStr "b") (VStr "c")] <> [] ->
        merge_state = "DIFF"%string)).
Proof.
  destruct (add_obj_merge_state value_ne (mkState [])) as [Hnew Hboth]. split.
  - apply (Hnew (sample_log 1%N "a" "b") SyftLog). reflexivity.
  - apply (Hboth (sample_log 1%N "a" "b") (sample_log 1%N "a" "c") SyftLog
             (get_diff_log (ne := value_ne))); reflexivity.
Defined.

(** ** The classifier: errors *)

Section ErrorFacts.

Context {ne : PyNe value}.

Lemma check_same_id_mismatch (c c' : pyclass) (i j : UID)
    (fl fh : list (string * value)) :
  i <> j -> check_same_id (VObj c i fl) (VObj c' j fh) = Raise id_mismatch.
Proof.
  intros Hij. unfold check_same_id. simpl.
  by destruct (N.eqb_spec i j).
Qed.

(** The comparators the registry holds, and the classes they are for. *)
Lemma func_dict_get_Some (c : pyclass) (f : comparator) :
  func_dict_get (class_name c) = Some f ->
  In c [SyftLog; Job; UserCode; Request] /\
  In f [get_diff_log; get_diff_job; get_diff_user_code; get_diff_request].
Proof.
  destruct c; unfold func_dict_get; simpl; intros [= <-]; simpl; tauto.
Qed.

Lemma func_dict_get_None (c : pyclass) :
  In (class_name c, None) func_dict <-> c = Project \/ c = ActionObject.
Proof.
  split.
  - unfold func_dict. simpl.
    intros [H|[H|[H|[H|[H|[H|[]]]]]]]; try discriminate;
      destruct c; try discriminate; auto.
  - intros [-> | ->]; simpl; auto 10.
Qed.

Lemma comparator_mismatch (f : comparator) (c c' : pyclass) (i j : UID)
    (fl fh : list (string * value)) :
  In f [get_diff_request; get_diff_user_code; get_diff_log; get_diff_job;
        get_diff_action_object] ->
  i <> j -> f (VObj c i fl) (VObj c' j fh) = Raise id_mismatch.
Proof.
  intros Hf Hij. pose proof (check_same_id_mismatch c c' i j fl fh Hij) as Hc.
  simpl in Hf.
  destruct Hf as [<-|[<-|[<-|[<-|[<-|[]]]]]];
    unfold get_diff_request, get_diff_user_code, get_diff_log, get_diff_job,
      get_diff_action_object; by rewrite Hc.
Qed.

Lemma add_obj_unregistered (c : pyclass) (low high : value) (st : State) :
  In (class_name c, None) func_dict ->
  get_type low = Ok c -> is_None high = false ->
  add_obj low high st = Raise not_callable.
Proof.
  intros Hc Ht Hh. pose proof (get_type_not_None _ _ Ht) as Hl.
  rewrite add_obj_classify. unfold classify. rewrite Hl, Hh. simpl.
  rewrite Ht. simpl.
  apply func_dict_get_None in Hc as [-> | ->]; reflexivity.
Qed.

End ErrorFacts.

(** C6 (amended).  Each of the comparators raises the identity-mismatch
    exception on two records whose identifiers differ, and so does
    [add_obj] on two such records when the category of the low one has a
    registered comparator; when that category is [Project] or
    [ActionObject], which have none, [add_obj] raises the not-callable
    [TypeError] instead.  [add_obj] on [(None, None)] raises the both-[None]
    exception.  In neither case does [add_obj], for records of any class,
    return a state. *)
Theorem mismatch_and_invalid_pair_raise :
  forall ne : PyNe value,
    (forall f c c' i j fl fh,
       In f [get_diff_request; get_diff_user_code; get_diff_log;
             get_diff_job; get_diff_action_object] ->
       i <> j -> f (VObj c i fl) (VObj c' j fh) = Raise id_mismatch) /\
    (forall f c c' i j fl fh st,
       func_dict_get (class_name c) = Some f -> i <> j ->
       add_obj (VObj c i fl) (VObj c' j fh) st = Raise id_mismatch) /\
    (forall c c' i j fl fh st,
       c = Project \/ c = ActionObject ->
       add_obj (VObj c i fl) (VObj c' j fh) st = Raise not_callable) /\
    (forall st, add_obj VNone VNone st = Raise invalid_pair) /\
    (forall c c' i j fl fh st,
       i <> j -> raises (add_obj (VObj c i fl) (VObj c' j fh) st)).
Proof.
  intros ne.
  assert (Hreg : forall f c c' i j fl fh st,
            func_dict_get (class_name c) = Some f -> i <> j ->
            add_obj (VObj c i fl) (VObj c' j fh) st = Raise id_mismatch).
  { intros f c c' i j fl fh st Hf Hij.
    destruct (func_dict_get_Some c f Hf) as [Hc Hin].
    rewrite add_obj_classify. unfold classify. simpl.
    assert (Ht : get_type (VObj c i fl) = Ok c)
      by (simpl in Hc; destruct Hc as [<-|[<-|[<-|[<-|[]]]]]; reflexivity).
    rewrite Ht. simpl. rewrite Hf. simpl.
    rewrite (comparator_mismatch f c c' i j fl fh); [reflexivity| |assumption].
    simpl in Hin. simpl. tauto. }
  split; [intros; by apply comparator_mismatch|].
  split; [exact Hreg|].
  split; [by intros c c' i j fl fh st [-> | ->]|].
  split; [reflexivity|].
  intros c c' i j fl fh st Hij. unfold raises.
  destruct (func_dict_get (class_name c)) as [f|] eqn:Hf.
  - exists id_mismatch. by eapply Hreg.
  - rewrite add_obj_classify. unfold classify. simpl.
    destruct (get_type (VObj c i fl)) as [c0|e] eqn:Ht; simpl; [|by eauto].
    apply get_type_record in Ht as [(i' & fs' & [= -> -> ->]) _].
    rewrite Hf. simpl. by eauto.
Qed.

Lemma mismatch_and_invalid_pair_raise_witness :
  get_diff_log (ne := value_ne) (sample_log 1%N "a" "b")
    (sample_log 2%N "a" "b") = Raise id_mismatch /\
  add_obj (ne := value_ne) (sample_log 1%N "a" "b") (sample_log 2%N "a" "b")
    (mkState []) = Raise id_mismatch /\
  add_obj (ne := value_ne) (sample_action_object 1%N)
    (sample_action_object 2%N) (mkState []) = Raise not_callable /\
  raises (add_obj (ne := value_ne) (sample_project 1%N) (sample_project 2%N)
            (mkState [])).
Proof.
  destruct (mismatch_and_invalid_pair_raise value_ne)
    as (Hcmp & Hreg & Hnone & _ & Hany).
  split; [|split; [|split]].
  - apply Hcmp; [simpl; tauto | discriminate].
  - apply (Hreg (get_diff_log (ne := value_ne))); [reflexivity | discriminate].
  - apply Hnone. by right.
  - apply Hany. discriminate.
Defined.

(** Two projects whose identifiers differ: the registry has no comparator
    for [Project], and [add_obj] raises the not-callable [TypeError], which
    is not the identity-mismatch exception. *)
Lemma project_mismatch_not_callable :
  add_obj (ne := value_ne) (sample_project 1%N) (sample_project 2%N)
    (mkState []) = Raise not_callable /\
  not_callable <> id_mismatch.
Proof. split; [reflexivity | discriminate]. Qed.

(** C8.  The registry maps exactly [Project] and [ActionObject] to [None];
    for a record of such a class, [add_obj] with both sides present raises
    the not-callable [TypeError] and appends nothing; and a pass over
    clients whose low-side projects are [Project]s raises when one of their
    identities is also an identity of the high side's projects. *)
Theorem unregistered_category_raises :
  forall ne : PyNe value,
    (forall c, In (class_name c, None) func_dict <->
               c = Project \/ c = ActionObject) /\
    (forall c low high st,
       In (class_name c, None) func_dict ->
       get_type low = Ok c -> is_None high = false ->
       add_obj low high st = Raise not_callable) /\
    (forall l h v w k,
       Forall (fun p => isinstance p Project = true) (projects l) ->
       In v (projects l) -> In w (projects h) ->
       get_id v = Ok k -> get_id w = Ok k ->
       raises (get_sync_state l h)).
Proof.
  intros ne. split; [apply func_dict_get_None|].
  split; [intros; by eapply add_obj_unregistered|].
  intros l h v w k Hall Hv Hw Hkv Hkw.
  destruct (get_sync_state l h) as [st|e] eqn:Hst; [|by exists e].
  exfalso. apply get_sync_state_inv in Hst as (_ & Hp & _).
  destruct (Hp v Hv) as (k' & v' & Hk' & Hv' & d & Hd & _).
  rewrite Hkv in Hk'. injection Hk' as <-.
  destruct (record_of_In _ _ _ Hw Hkw) as [w' Hw']. rewrite Hw' in Hd.
  simpl in Hd. apply record_of_Some in Hv' as [Hin _].
  apply record_of_Some in Hw' as [_ Hidw].
  rewrite Forall_forall in Hall. apply list_elem_of_In, Hall in Hin.
  destruct v' as [| | | | | |cv iv fv]; try discriminate.
  destruct cv; try discriminate.
  destruct w' as [| | | | | |cw iw fw]; discriminate.
Qed.

Lemma unregistered_category_raises_witness :
  add_obj (ne := value_ne) (sample_project 1%N) (sample_project 1%N)
    (mkState []) = Raise not_callable /\
  raises (get_sync_state (ne := value_ne)
            (mkClient [sample_project 1%N] [] [] [] [])
            (mkClient [sample_project 1%N] [] [] [] [])).
Proof.
  destruct (unregistered_category_raises value_ne) as (Hnone & Hadd & Hpass).
  split.
  - apply (Hadd Project); [apply Hnone; by left | reflexivity | reflexivity].
  - apply (Hpass _ _ (sample_project 1%N) (sample_project 1%N) 1%N);
      try reflexivity; try (by left).
    constructor; [reflexivity | constructor].
Defined.

(** The helper [get_merge_state], which [add_obj] does not call, would
    answer ["DIFF"] for two records of a class without a comparator. *)
Remark get_merge_state_unregistered (ne : PyNe value) (c : pyclass)
    (low high : value) :
  In (class_name c, None) func_dict ->
  is_None low = false -> is_None high = false ->
  get_merge_state low high c = Ok "DIFF"%string.
Proof.
  intros Hc Hl Hh. unfold get_merge_state. rewrite Hl, Hh. simpl.
  apply func_dict_get_None in Hc as [-> | ->]; reflexivity.
Qed.

(** ** The presence invariant *)

(** C7.  Every [Diff] that [add_obj] appends holds the two objects it was
    given and satisfies the presence invariant: exactly one of the two is
    absent iff the state is ["NEW"], both are present iff the state is
    ["SAME"] or ["DIFF"], and not both are absent.  So do all entries of a
    state built from the empty state by [add_obj], and all entries of the
    state a pass returns.  For two absent objects [add_obj] raises and
    appends nothing. *)
Theorem presence_invariant_holds :
  forall ne : PyNe value,
    (forall low high st st',
       add_obj low high st = Ok st' ->
       exists d, st' = append_diff st d /\
                 low_obj d = low /\ high_obj d = high /\
                 presence_invariant d) /\
    (forall st, built st -> Forall presence_invariant (diff_to_sync st)) /\
    (forall l h st,
       get_sync_state l h = Ok st ->
       Forall presence_invariant (diff_to_sync st)) /\
    (forall low high st,
       is_None low = true -> is_None high = true ->
       add_obj low high st = Raise invalid_pair).
Proof.
  intros ne.
  assert (Hbuilt : forall st, built st ->
                     Forall presence_invariant (diff_to_sync st)).
  { intros st Hst. apply built_entries in Hst.
    eapply Forall_impl; [exact Hst|]. by intros d [Hd _]. }
  split; [|split; [exact Hbuilt|split]].
  - intros low high st st' Hadd.
    apply add_obj_inv in Hadd as (d & Hd & ->). exists d.
    split; [reflexivity|]. pose proof (classify_presence _ _ _ Hd).
    apply classify_inv in Hd as (Hl & Hh & _). auto.
  - intros l h st Hst. apply Hbuilt.
    by apply get_sync_state_inv in Hst as (Hb & _).
  - intros low high st Hl Hh. unfold add_obj. by rewrite Hl, Hh.
Qed.

Lemma presence_invariant_holds_witness :
  Forall presence_invariant (diff_to_sync jobs_state).
Proof.
  destruct (presence_invariant_holds value_ne) as (_ & _ & Hpass & _).
  apply (Hpass low_jobs_client high_jobs_client). reflexivity.
Defined.

(** ** No sentinel among the objects to synchronise *)

(** C10.  A [Diff] that [add_obj] appends in state ["NEW"] has exactly one
    of its two objects, and [get_obj] returns it, a record.  [objs_to_sync]
    calls [get_obj] on entries in state ["NEW"] only, where it returns the
    present object and not the string ["Error"].  So every element that
    [objs_to_sync] returns for a state built by [add_obj], and for the state
    a pass returns, is a record and not the string ["Error"]. *)
Theorem objs_to_sync_records :
  forall ne : PyNe value,
    (forall low high st st',
       add_obj low high st = Ok st' ->
       exists d, st' = append_diff st d /\
         (merge_state d = "NEW"%string ->
            exactly_one_absent d /\ get_obj d = present_record d /\
            is_record (get_obj d))) /\
    (forall st,
       objs_to_sync st =
         map get_obj
           (List.filter (fun d => String.eqb (merge_state d) "NEW")
              (diff_to_sync st)) /\
       forall d, merge_state d = "NEW"%string -> get_obj d = present_record d) /\
    (forall st, built st ->
       forall v, In v (objs_to_sync st) -> is_record v /\ v <> VStr "Error") /\
    (forall l h st, get_sync_state l h = Ok st ->
       forall v, In v (objs_to_sync st) -> is_record v /\ v <> VStr "Error").
Proof.
  intros ne.
  assert (Hget : forall d, merge_state d = "NEW"%string ->
                           get_obj d = present_record d).
  { intros d Hnew. unfold get_obj, present_record. rewrite Hnew. simpl.
    by destruct (is_None (low_obj d)). }
  assert (Hbuilt : forall st, built st ->
            forall v, In v (objs_to_sync st) ->
                      is_record v /\ v <> VStr "Error").
  { intros st Hst v Hv. apply built_entries in Hst.
    rewrite objs_to_sync_eq in Hv. apply in_map_iff in Hv as (d & <- & Hd).
    apply filter_In in Hd as [Hin Hnew]. apply String.eqb_eq in Hnew.
    rewrite Forall_forall in Hst. apply list_elem_of_In, Hst in Hin.
    destruct Hin as [_ Hrec]. specialize (Hrec Hnew). split; [assumption|].
    destruct Hrec as (c & i & fs & -> & _). discriminate. }
  split; [|split; [|split]].
  - intros low high st st' Hadd.
    apply add_obj_inv in Hadd as (d & Hd & ->). exists d.
    split; [reflexivity|]. intros Hnew.
    destruct (classify_new _ _ _ Hd Hnew) as (Hone & Hobj & Hrec).
    rewrite Hobj. auto.
  - intros st. split; [|exact Hget]. rewrite objs_to_sync_eq.
    apply map_ext_in. intros d Hd. apply filter_In in Hd as [_ Hnew].
    symmetry. apply Hget. by apply String.eqb_eq.
  - exact Hbuilt.
  - intros l h st Hst. apply Hbuilt.
    by apply get_sync_state_inv in Hst as (Hb & _).
Qed.

Lemma objs_to_sync_records_witness :
  is_record (sample_action_object 7%N) /\
  sample_action_object 7%N <> VStr "Error".
Proof.
  destruct (objs_to_sync_records value_ne) as (_ & _ & _ & Hpass).
  apply (Hpass low_jobs_client high_jobs_client jobs_state); [reflexivity|].
  right. by left.
Defined.

(** ** Comparators on well-formed records *)

Section ComparatorFacts.

Context {ne : PyNe value}.

Lemma compare_attrs_eq (names : list string) (low high : value)
    (acc : list DiffAttr) :
  has_attrs names low -> has_attrs names high ->
  compare_attrs names low high acc = Ok (acc ++ attr_diffs names low high).
Proof.
  unfold compare_attrs, attr_diffs. revert acc.
  induction names as [|name names IH]; intros acc Hl Hh; simpl.
  - by rewrite app_nil_r.
  - destruct (Hl name) as [a Ha]; [by left|].
    destruct (Hh name) as [b Hb]; [by left|].
    rewrite Ha, Hb. simpl.
    rewrite IH by (intros n Hn; (apply Hl || apply Hh); by right).
    destruct (py_ne a b); [by rewrite <- app_assoc | reflexivity].
Qed.

(** On one and the same record, an irreflexive [!=] finds no difference:
    the attribute loop returns what it was given or raises. *)
Lemma compare_attrs_same (names : list string) (r : value)
    (acc diffs : list DiffAttr) :
  (forall x : value, py_ne x x = false) ->
  compare_attrs names r r acc = Ok diffs -> diffs = acc.
Proof.
  intros Hirr. unfold compare_attrs. revert acc.
  induction names as [|name names IH]; intros acc; simpl.
  - by intros [= <-].
  - destruct (getattr r name) as [a|]; simpl; [|discriminate].
    rewrite Hirr. apply IH.
Qed.

Lemma get_diff_list_same (l : list value) :
  (forall x : value, py_ne x x = false) ->
  get_diff_list l l = Ok ([], [], []).
Proof.
  intros Hirr. rewrite get_diff_list_eq. unfold range, common_length.
  rewrite Nat.sub_diag, Nat.min_id. simpl. do 3 f_equal.
  induction (seq 0 (length l)) as [|i is' IH]; simpl; [reflexivity|].
  rewrite IH. unfold differs_at. destruct (l !! i); [|reflexivity].
  by rewrite Hirr.
Qed.

Lemma diff_list_attr_same (name attr : string) (r : value)
    (acc diffs : list DiffAttr) :
  (forall x : value, py_ne x x = false) ->
  diff_list_attr name attr r r acc = Ok diffs -> diffs = acc.
Proof.
  intros Hirr. unfold diff_list_attr.
  destruct (getattr r attr) as [a|]; simpl; [|discriminate].
  destruct (as_list a) as [l|]; simpl; [|discriminate].
  rewrite get_diff_list_same by assumption. simpl. by intros [= <-].
Qed.

Lemma comparator_same (f : comparator) (r : value) (diffs : list DiffAttr) :
  (forall x : value, py_ne x x = false) ->
  In f [get_diff_request; get_diff_user_code; get_diff_log; get_diff_job;
        get_diff_action_object] ->
  f r r = Ok diffs -> diffs = [].
Proof.
  intros Hirr Hf. simpl in Hf.
  destruct Hf as [<-|[<-|[<-|[<-|[<-|[]]]]]];
    unfold get_diff_request, get_diff_user_code, get_diff_log, get_diff_job,
      get_diff_action_object;
    intros Hb; apply bind_Ok in Hb as (_ & _ & Hb);
    try (by eapply compare_attrs_same).
  - apply bind_Ok in Hb as (d1 & H1 & Hb). apply bind_Ok in Hb as (d2 & H2 & H3).
    apply compare_attrs_same in H1; [|assumption]. subst d1.
    apply diff_list_attr_same in H2; [|assumption]. subst d2.
    by apply diff_list_attr_same in H3.
  - apply bind_Ok in Hb as (d1 & H1 & Hb). apply bind_Ok in Hb as (s1 & H2 & Hb).
    rewrite H2 in Hb. simpl in Hb. rewrite Hirr in Hb. injection Hb as <-.
    by eapply compare_attrs_same.
Qed.

End ComparatorFacts.

(** X1.  The log and job comparators, on two records with the same identifier
    that have all the compared attributes, return one [DiffAttr] for each
    attribute whose values are [!=], in the order of the attribute list. *)
Theorem comparators_return :
  forall (ne : PyNe value) (c c' : pyclass) (i : UID)
         (fl fh : list (string * value)),
    (has_attrs log_basic_attrs (VObj c i fl) ->
     has_attrs log_basic_attrs (VObj c' i fh) ->
     get_diff_log (VObj c i fl) (VObj c' i fh) =
       Ok (attr_diffs log_basic_attrs (VObj c i fl) (VObj c' i fh))) /\
    (has_attrs job_basic_attrs (VObj c i fl) ->
     has_attrs job_basic_attrs (VObj c' i fh) ->
     get_diff_job (VObj c i fl) (VObj c' i fh) =
       Ok (attr_diffs job_basic_attrs (VObj c i fl) (VObj c' i fh))).
Proof.
  intros ne c c' i fl fh.
  split; intros Hl Hh; unfold get_diff_log, get_diff_job, check_same_id;
    simpl; rewrite N.eqb_refl; simpl; by rewrite compare_attrs_eq.
Qed.

Lemma comparators_return_witness :
  get_diff_log (ne := value_ne) (sample_log 1%N "a" "b")
    (sample_log 1%N "a" "c") =
  Ok [mkDiffAttr "stderr" (VStr "b") (VStr "c")].
Proof.
  destruct (comparators_return value_ne SyftLog SyftLog 1%N
              [("stdout"%string, VStr "a"); ("stderr"%string, VStr "b")]
              [("stdout"%string, VStr "a"); ("stderr"%string, VStr "c")])
    as [Hlog _].
  apply Hlog; intros name [<-|[<-|[]]]; simpl; by eauto.
Defined.

(** X2.  With a [!=] that no value satisfies against itself, classifying a
    record of a category with a registered comparator against itself, when
    the comparator returns, appends a [Diff] in state ["SAME"] with an empty
    difference list. *)
Theorem identical_records_same :
  forall (ne : PyNe value) (r : value) (c : pyclass) (f : comparator)
         (diffs : list DiffAttr) (st : State),
    (forall x : value, py_ne x x = false) ->
    get_type r = Ok c ->
    func_dict_get (class_name c) = Some f ->
    f r r = Ok diffs ->
    add_obj r r st = Ok (append_diff st (mkDiff r r c "SAME" [])).
Proof.
  intros ne r c f diffs st Hirr Hc Hf Hd.
  assert (diffs = []) as ->.
  { apply (comparator_same f r); [assumption| |assumption].
    destruct (func_dict_get_Some c f Hf) as [_ Hin]. simpl in Hin. simpl.
    tauto. }
  by rewrite (add_obj_both_present ne r r c f [] st Hc
                (get_type_not_None _ _ Hc) Hf Hd).
Qed.

Lemma value_eqb_refl (v : value) : value_eqb v v = true.
Proof.
  revert v. fix IH 1.
  intros [|b|n|s|items|items|c i fields]; simpl.
  - reflexivity.
  - by destruct b.
  - apply Z.eqb_refl.
  - apply String.eqb_refl.
  - induction items as [|x xs IHxs]; [reflexivity|].
    by rewrite (IH x), IHxs.
  - induction items as [|[k x] xs IHxs]; [reflexivity|].
    by rewrite (IH k), (IH x), IHxs.
  - assert (pyclass_eqb c c = true) as -> by (by destruct c).
    rewrite N.eqb_refl. simpl.
    induction fields as [|[k x] xs IHxs]; [reflexivity|].
    by rewrite String.eqb_refl, (IH x), IHxs.
Qed.

Lemma identical_records_same_witness :
  add_obj (ne := value_ne) (sample_log 1%N "a" "b") (sample_log 1%N "a" "b")
    (mkState []) =
  Ok (mkState [mkDiff (sample_log 1%N "a" "b") (sample_log 1%N "a" "b")
                 SyftLog "SAME" []]).
Proof.
  apply (identical_records_same value_ne (sample_log 1%N "a" "b") SyftLog
           (get_diff_log (ne := value_ne)) []).
  - intros x. unfold py_ne, value_ne. by rewrite value_eqb_refl.
  - reflexivity.
  - reflexivity.
  - reflexivity.
Defined.

(** ** When a pass returns *)

Lemma for_each_returns {A S} (xs : list A) (body : A -> S -> result S) :
  (forall x s, In x xs -> exists s', body x s = Ok s') ->
  forall s, exists s', for_each xs body s = Ok s'.
Proof.
  induction xs as [|x xs IH]; intros Hbody s; simpl; [by eauto|].
  destruct (Hbody x s) as [s1 ->]; [by left|]. simpl.
  apply IH. intros y t Hy. apply Hbody. by right.
Qed.

Lemma dictify_returns (objs : list value) :
  (forall v, In v objs -> exists k, get_id v = Ok k) ->
  exists d, dictify objs = Ok d.
Proof.
  intros Hids. unfold dictify. apply for_each_returns.
  intros v d Hv. destruct (Hids v Hv) as [k ->]. simpl. by eauto.
Qed.

Lemma dict_values_record_of (objs : list value) (d : pydict) (v : value) :
  dictify objs = Ok d -> In v (dict_values d) ->
  exists k, record_of objs k = Some v /\ get_id v = Ok k.
Proof.
  intros Hd Hv. destruct (dictify_spec _ _ Hd) as [Hnd Hget].
  apply dict_get_values in Hv as [k Hk]; [|assumption].
  rewrite Hget in Hk. exists k. split; [assumption|].
  by apply record_of_Some in Hk as [_ Hid].
Qed.

Section ReturnFacts.

Context {ne : PyNe value}.

Lemma add_obj_returns (low high : value) (s : State) :
  classifiable low high -> exists s', add_obj low high s = Ok s'.
Proof. intros [d Hd]. rewrite add_obj_classify, Hd. simpl. by eauto. Qed.

Lemma classifiable_result (r : value) : is_record r -> classifiable VNone r.
Proof.
  intros (c & i & fs & -> & Hc). unfold classifiable, classify. simpl.
  simpl in Hc. destruct Hc as [<-|[<-|[<-|[<-|[<-|[<-|[]]]]]]]; by eauto.
Qed.

Lemma sync_low_side_returns (lows highs : list value) (dl dh : pydict)
    (s : State) :
  dictify lows = Ok dl -> dictify highs = Ok dh ->
  (forall k v, record_of lows k = Some v ->
     classifiable v (or_None (record_of highs k))) ->
  exists s', sync_low_side dl dh s = Ok s'.
Proof.
  intros Hl Hh Hall. unfold sync_low_side. apply for_each_returns.
  intros obj t Hobj.
  destruct (dict_values_record_of _ _ _ Hl Hobj) as (k & Hk & ->). simpl.
  destruct (dictify_spec _ _ Hh) as [_ Hget].
  specialize (Hall k obj Hk). rewrite <- Hget in Hall.
  unfold dict_contains, dict_getitem.
  destruct (dict_get dh k); simpl; by apply add_obj_returns.
Qed.

Lemma sync_high_obj_returns (lows highs : list value) (dl dh : pydict)
    (obj : value) (s : State) :
  dictify lows = Ok dl -> dictify highs = Ok dh ->
  (forall k w, record_of highs k = Some w ->
     classifiable (or_None (record_of lows k)) w) ->
  In obj (dict_values dh) ->
  exists s', sync_high_obj dl obj s = Ok s'.
Proof.
  intros Hl Hh Hall Hobj. unfold sync_high_obj.
  destruct (dict_values_record_of _ _ _ Hh Hobj) as (k & Hk & ->). simpl.
  destruct (dictify_spec _ _ Hl) as [_ Hget].
  specialize (Hall k obj Hk). rewrite <- Hget in Hall.
  unfold dict_contains, dict_getitem.
  destruct (dict_get dl k); simpl; by apply add_obj_returns.
Qed.

End ReturnFacts.

(** X3.  A pass returns a state whenever every object of the ten
    collections has an [id], every pair that the five loops enumerate is
    one the classifier returns for, and every job that the high side's
    lookup holds has a [result] that is an [ActionDataEmpty] or a record. *)
Theorem get_sync_state_returns :
  forall (ne : PyNe value) (l h : Client),
    pass_preconditions l h -> exists st, get_sync_state l h = Ok st.
Proof.
  intros ne l h (Hids & Hlow & Hhigh & Hres). unfold get_sync_state.
  assert (Hdict : forall coll c,
            In coll [projects; requests; code; jobs; logs] -> In c [l; h] ->
            exists d, dictify (coll c) = Ok d).
  { intros coll c Hcoll Hc. apply dictify_returns. by apply Hids. }
  destruct (Hdict projects l) as [lp Hlp]; [simpl; tauto ..|].
  destruct (Hdict projects h) as [hp Hhp]; [simpl; tauto ..|].
  destruct (Hdict requests l) as [lr Hlr]; [simpl; tauto ..|].
  destruct (Hdict requests h) as [hr Hhr]; [simpl; tauto ..|].
  destruct (Hdict code l) as [lc Hlc]; [simpl; tauto ..|].
  destruct (Hdict code h) as [hc Hhc]; [simpl; tauto ..|].
  destruct (Hdict jobs l) as [lj Hlj]; [simpl; tauto ..|].
  destruct (Hdict jobs h) as [hj Hhj]; [simpl; tauto ..|].
  destruct (Hdict logs l) as [ll Hll]; [simpl; tauto ..|].
  destruct (Hdict logs h) as [hl Hhl]; [simpl; tauto ..|].
  rewrite Hlp, Hhp. simpl.
  destruct (sync_low_side_returns _ _ _ _ (mkState []) Hlp Hhp) as [s1 ->];
    [apply (Hlow projects); simpl; tauto|]. simpl.
  rewrite Hlr, Hhr. simpl.
  destruct (sync_low_side_returns _ _ _ _ s1 Hlr Hhr) as [s2 ->];
    [apply (Hlow requests); simpl; tauto|]. simpl.
  rewrite Hlc, Hhc. simpl.
  destruct (sync_low_side_returns _ _ _ _ s2 Hlc Hhc) as [s3 ->];
    [apply (Hlow code); simpl; tauto|]. simpl.
  rewrite Hlj, Hhj. simpl.
  assert (Hjobs : exists s4, sync_jobs lj hj s3 = Ok s4).
  { unfold sync_jobs. apply for_each_returns. intros job t Hjob.
    destruct (sync_high_obj_returns _ _ _ _ job t Hlj Hhj) as [t1 ->];
      [apply (Hhigh jobs); simpl; tauto | assumption |]. simpl.
    destruct (dict_values_record_of _ _ _ Hhj Hjob) as (k & Hk & _).
    destruct (Hres k job Hk) as (r & -> & Hrec). simpl.
    destruct (isinstance r ActionDataEmpty); simpl; [by eauto|].
    apply add_obj_returns, classifiable_result. by apply Hrec. }
  destruct Hjobs as [s4 ->]. simpl. rewrite Hll, Hhl. simpl.
  unfold sync_logs. apply for_each_returns. intros log t Hlog.
  apply (sync_high_obj_returns (logs l) (logs h) ll hl); try assumption.
  apply (Hhigh logs). simpl. tauto.
Qed.

Lemma get_sync_state_returns_witness :
  exists st,
    get_sync_state (ne := value_ne) low_jobs_client high_jobs_client = Ok st.
Proof.
  apply (get_sync_state_returns value_ne low_jobs_client high_jobs_client).
  split; [|split; [|split]].
  - intros coll Hcoll c Hc v Hv. simpl in Hcoll, Hc.
    destruct Hc as [<-|[<-|[]]];
      destruct Hcoll as [<-|[<-|[<-|[<-|[<-|[]]]]]]; simpl in Hv;
      repeat (destruct Hv as [<-|Hv]; [by eauto|]); destruct Hv.
  - intros coll Hcoll k v Hv. simpl in Hcoll.
    destruct Hcoll as [<-|[<-|[<-|[]]]]; simpl in Hv; discriminate.
  - intros coll Hcoll k w Hw. simpl in Hcoll.
    destruct Hcoll as [<-|[<-|[]]]; [|simpl in Hw; discriminate].
    apply record_of_Some in Hw as [Hin Hid]. simpl in Hin.
    destruct Hin as [<-|[<-|[]]]; injection Hid as <-;
      eexists; vm_compute; reflexivity.
  - intros k job Hjob. apply record_of_Some in Hjob as [Hin _]. simpl in Hin.
    destruct Hin as [<-|[<-|[]]]; eexists; (split; [reflexivity|]).
    + discriminate.
    + intros _. exists ActionObject, 7%N, []. split; [reflexivity|].
      simpl. tauto.
Defined.

(** ** The entries of a pass, in order *)

Lemma for_each_ext {A S} (xs : list A) (body body' : A -> S -> result S) (s : S) :
  (forall x t, In x xs -> body x t = body' x t) ->
  for_each xs body s = for_each xs body' s.
Proof.
  revert s. induction xs as [|x xs IH]; intros s Hext; simpl; [reflexivity|].
  rewrite Hext by (by left). destruct (body' x s) as [s'|e]; simpl;
    [|reflexivity].
  apply IH. intros y t Hy. apply Hext. by right.
Qed.

Lemma extend_extend (s : State) (ds ds' : list Diff) :
  extend (extend s ds) ds' = extend s (ds ++ ds').
Proof. unfold extend. simpl. by rewrite app_assoc. Qed.

Lemma extend_nil (s : State) : extend s [] = s.
Proof. destruct s as [ds]. unfold extend. simpl. by rewrite app_nil_r. Qed.

(** A loop whose iterations append entries that do not depend on the state
    appends the entries of all its iterations, in order. *)
Lemma for_each_extend {A} (g : A -> result (list Diff)) (xs : list A)
    (s : State) :
  for_each xs (fun x t => let* ds := g x in Ok (extend t ds)) s =
  let* dss := mapM g xs in Ok (extend s (concat dss)).
Proof.
  revert s. induction xs as [|x xs IH]; intros s; simpl.
  - by rewrite extend_nil.
  - destruct (g x) as [ds|e]; simpl; [|reflexivity].
    rewrite IH. destruct (mapM g xs) as [dss|e]; simpl; [|reflexivity].
    by rewrite extend_extend.
Qed.

Lemma mapM_singletons {A B} (f : A -> result B) (xs : list A) :
  mapM (fun x => let* y := f x in Ok [y]) xs =
  let* ys := mapM f xs in Ok (map (fun y => [y]) ys).
Proof.
  induction xs as [|x xs IH]; simpl; [reflexivity|].
  destruct (f x) as [y|e]; simpl; [|reflexivity].
  rewrite IH. by destruct (mapM f xs).
Qed.

Lemma concat_singletons {B} (ys : list B) : concat (map (fun y => [y]) ys) = ys.
Proof. induction ys as [|y ys IH]; simpl; [reflexivity | by rewrite IH]. Qed.

Lemma mapM_ext {A B} (f g : A -> result B) (xs : list A) :
  (forall x, In x xs -> f x = g x) -> mapM f xs = mapM g xs.
Proof.
  induction xs as [|x xs IH]; intros Hext; simpl; [reflexivity|].
  rewrite Hext by (by left). rewrite IH; [reflexivity|].
  intros y Hy. apply Hext. by right.
Qed.

Lemma mapM_Forall2 {A B} (f : A -> result B) (xs : list A) (ys : list B) :
  mapM f xs = Ok ys <-> Forall2 (fun x y => f x = Ok y) xs ys.
Proof.
  revert ys. induction xs as [|x xs IH]; intros ys; simpl.
  - split; [intros [= <-]; constructor | by inversion 1].
  - split.
    + intros Hb. apply bind_Ok in Hb as (y & Hy & Hb).
      apply bind_Ok in Hb as (ys' & Hys & [= <-]).
      constructor; [assumption | by apply IH].
    + inversion 1 as [|? y ? ys' Hy Hys]; subst. rewrite Hy. simpl.
      apply IH in Hys. by rewrite Hys.
Qed.

Lemma dictify_dict_of (objs : list value) (d : pydict) :
  dictify objs = Ok d -> d = dict_of objs.
Proof.
  unfold dictify, dict_of. generalize (@nil (UID * value)) as acc. revert d.
  induction objs as [|v objs IH]; intros d acc; simpl.
  - by intros [= <-].
  - destruct (get_id v) as [k|e]; simpl; [apply IH | discriminate].
Qed.

Section PassEntriesFacts.

Context {ne : PyNe value}.

Lemma append_diff_extend (s : State) (d : Diff) : append_diff s d = extend s [d].
Proof. reflexivity. Qed.

Lemma sync_low_side_entries (lows highs : list value) (dl dh : pydict)
    (s : State) :
  dictify lows = Ok dl -> dictify highs = Ok dh ->
  sync_low_side dl dh s =
  let* ds := mapM (low_pair_entry highs) (kept_records lows) in
  Ok (extend s ds).
Proof.
  intros Hl Hh. destruct (dictify_spec _ _ Hh) as [_ Hget].
  apply dictify_dict_of in Hl as ->. unfold sync_low_side, kept_records.
  rewrite (for_each_ext _ _
             (fun obj t =>
                let* ds := (let* d := low_pair_entry highs obj in Ok [d]) in
                Ok (extend t ds))).
  - rewrite for_each_extend, mapM_singletons.
    destruct (mapM _ _) as [ds|e]; simpl; [|reflexivity].
    by rewrite concat_singletons.
  - intros obj t _. unfold low_pair_entry.
    destruct (get_id obj) as [k|e]; simpl; [|reflexivity].
    rewrite <- Hget. unfold dict_contains, dict_getitem.
    destruct (dict_get dh k) as [w|]; simpl; rewrite add_obj_classify;
      by destruct (classify _ _).
Qed.

Lemma sync_high_obj_entry (lows : list value) (dl : pydict) (obj : value)
    (s : State) :
  dictify lows = Ok dl ->
  sync_high_obj dl obj s =
  let* d := high_pair_entry lows obj in Ok (extend s [d]).
Proof.
  intros Hl. destruct (dictify_spec _ _ Hl) as [_ Hget].
  unfold sync_high_obj, high_pair_entry.
  destruct (get_id obj) as [k|e]; simpl; [|reflexivity].
  rewrite <- Hget. unfold dict_contains, dict_getitem.
  destruct (dict_get dl k) as [w|]; simpl; by rewrite add_obj_classify.
Qed.

Lemma sync_jobs_entries (lows highs : list value) (dl dh : pydict)
    (s : State) :
  dictify lows = Ok dl -> dictify highs = Ok dh ->
  sync_jobs dl dh s =
  let* dss := mapM (job_entries lows) (kept_records highs) in
  Ok (extend s (concat dss)).
Proof.
  intros Hl Hh. apply dictify_dict_of in Hh as ->.
  unfold sync_jobs, kept_records. rewrite <- for_each_extend.
  apply for_each_ext. intros job t _.
  rewrite (sync_high_obj_entry lows) by assumption. unfold job_entries.
  destruct (high_pair_entry lows job) as [d|e]; simpl; [|reflexivity].
  destruct (getattr job "result") as [r|e]; simpl; [|reflexivity].
  destruct (isinstance r ActionDataEmpty); simpl; [reflexivity|].
  rewrite add_obj_classify.
  destruct (classify VNone r) as [d'|e]; simpl; [|reflexivity].
  by rewrite append_diff_extend, extend_extend.
Qed.

Lemma sync_logs_entries (lows highs : list value) (dl dh : pydict)
    (s : State) :
  dictify lows = Ok dl -> dictify highs = Ok dh ->
  sync_logs dl dh s =
  let* ds := mapM (high_pair_entry lows) (kept_records highs) in
  Ok (extend s ds).
Proof.
  intros Hl Hh. apply dictify_dict_of in Hh as ->.
  unfold sync_logs, kept_records.
  rewrite (for_each_ext _ _
             (fun obj t =>
                let* ds := (let* d := high_pair_entry lows obj in Ok [d]) in
                Ok (extend t ds))).
  - rewrite for_each_extend, mapM_singletons.
    destruct (mapM _ _) as [ds|e]; simpl; [|reflexivity].
    by rewrite concat_singletons.
  - intros obj t _. rewrite (sync_high_obj_entry lows) by assumption.
    by destruct (high_pair_entry lows obj).
Qed.

(** The state of a pass that returns holds the entries of the five loops,
    in their order. *)
Lemma get_sync_state_entries (l h : Client) (st : State) :
  get_sync_state l h = Ok st -> pass_entries l h = Ok (diff_to_sync st).
Proof.
  unfold get_sync_state, pass_entries. intros Hb.
  apply bind_Ok in Hb as (lp & Hlp & Hb). apply bind_Ok in Hb as (hp & Hhp & Hb).
  apply bind_Ok in Hb as (s1 & H1 & Hb).
  apply bind_Ok in Hb as (lr & Hlr & Hb). apply bind_Ok in Hb as (hr & Hhr & Hb).
  apply bind_Ok in Hb as (s2 & H2 & Hb).
  apply bind_Ok in Hb as (lc & Hlc & Hb). apply bind_Ok in Hb as (hc & Hhc & Hb).
  apply bind_Ok in Hb as (s3 & H3 & Hb).
  apply bind_Ok in Hb as (lj & Hlj & Hb). apply bind_Ok in Hb as (hj & Hhj & Hb).
  apply bind_Ok in Hb as (s4 & H4 & Hb).
  apply bind_Ok in Hb as (ll & Hll & Hb). apply bind_Ok in Hb as (hl & Hhl & H5).
  rewrite (sync_low_side_entries (projects l) (projects h)) in H1 by assumption.
  rewrite (sync_low_side_entries (requests l) (requests h)) in H2 by assumption.
  rewrite (sync_low_side_entries (code l) (code h)) in H3 by assumption.
  rewrite (sync_jobs_entries (jobs l) (jobs h)) in H4 by assumption.
  rewrite (sync_logs_entries (logs l) (logs h)) in H5 by assumption.
  apply bind_Ok in H1 as (ps & -> & [= <-]).
  apply bind_Ok in H2 as (rs & -> & [= <-]).
  apply bind_Ok in H3 as (cs & -> & [= <-]).
  apply bind_Ok in H4 as (js & -> & [= <-]).
  apply bind_Ok in H5 as (ls & -> & [= <-]).
  simpl. by rewrite <- !app_assoc.
Qed.

End PassEntriesFacts.

Section PassOrderFacts.

Context {ne : PyNe value}.

Lemma get_id_not_None (v : value) (k : UID) : get_id v = Ok k -> is_None v = false.
Proof. by destruct v. Qed.

Lemma or_None_record_of (objs : list value) (k : UID) :
  is_None (or_None (record_of objs k)) =
  match record_of objs k with
  | Some _ => false
  | None => true
  end.
Proof.
  destruct (record_of objs k) as [w|] eqn:Hw; [|reflexivity].
  apply record_of_Some in Hw as [_ Hid]. simpl. by eapply get_id_not_None.
Qed.

Lemma low_pair_entry_inv (highs : list value) (obj : value) (d : Diff) :
  low_pair_entry highs obj = Ok d ->
  low_pair highs obj d /\ present_record d = obj /\
  is_new d = missing_in highs obj.
Proof.
  unfold low_pair_entry, missing_in. intros Hb.
  apply bind_Ok in Hb as (k & Hk & Hd). rewrite Hk.
  pose proof (get_id_not_None _ _ Hk) as Hn.
  pose proof (or_None_record_of highs k) as Hh.
  apply classify_inv in Hd as (Hl & Hhi & _ & Hcase).
  split; [by exists k|]. unfold present_record, is_new. rewrite Hl, Hn.
  split; [reflexivity|].
  destruct Hcase as [(Hor & _ & -> & _) | (_ & Hnh & f & _ & _ & ->)].
  - rewrite Hn in Hor. simpl in Hor. rewrite Hor in Hh.
    by destruct (record_of highs k).
  - rewrite Hnh in Hh. destruct (record_of highs k); [|discriminate].
    by destruct (diff_list d).
Qed.

Lemma high_pair_entry_inv (lows : list value) (obj : value) (d : Diff) :
  high_pair_entry lows obj = Ok d ->
  high_pair lows obj d /\
  (if is_new d then present_record d = obj else True) /\
  is_new d = missing_in lows obj.
Proof.
  unfold high_pair_entry, missing_in. intros Hb.
  apply bind_Ok in Hb as (k & Hk & Hd). rewrite Hk.
  pose proof (get_id_not_None _ _ Hk) as Hn.
  pose proof (or_None_record_of lows k) as Hh.
  apply classify_inv in Hd as (Hl & Hhi & _ & Hcase).
  split; [by exists k|]. unfold present_record, is_new. rewrite Hl, Hhi.
  destruct Hcase as [(Hor & _ & -> & _) | (Hnl & _ & f & _ & _ & ->)].
  - rewrite Hn, orb_false_r in Hor. rewrite Hor in Hh. rewrite Hor. simpl.
    split; [reflexivity|]. by destruct (record_of lows k).
  - rewrite Hnl in Hh. destruct (record_of lows k); [|discriminate].
    by destruct (diff_list d).
Qed.

Lemma job_entries_inv (lows : list value) (job : value) (ds : list Diff) :
  job_entries lows job = Ok ds ->
  job_pair lows job ds /\
  map present_record (List.filter is_new ds) = job_objs lows job /\
  length ds = if has_result job then 2 else 1.
Proof.
  unfold job_entries, job_objs, result_objs, has_result. intros Hb.
  apply bind_Ok in Hb as (d & Hd & Hb).
  apply bind_Ok in Hb as (r & Hr & Hb). rewrite Hr.
  apply high_pair_entry_inv in Hd as (Hpair & Hpres & Hnew).
  destruct (isinstance r ActionDataEmpty) eqn:Hempty; simpl in Hb.
  - injection Hb as <-. split; [exists d, r; by auto|]. simpl.
    rewrite <- Hnew. split; [|reflexivity].
    destruct (is_new d); simpl; [by rewrite Hpres | reflexivity].
  - apply bind_Ok in Hb as (d' & Hd' & [= <-]).
    unfold classify in Hd'. simpl in Hd'.
    destruct (is_None r); [discriminate|].
    destruct (get_type r) as [c|] eqn:Hc; simpl in Hd'; [|discriminate].
    injection Hd' as <-. split; [exists d, r; by eauto 10|]. simpl.
    rewrite <- Hnew. split; [|reflexivity].
    destruct (is_new d); simpl; [by rewrite Hpres | reflexivity].
Qed.

Lemma Forall2_filter_map (f : value -> result Diff) (p : value -> bool)
    (xs : list value) (ds : list Diff) :
  (forall x d, f x = Ok d -> present_record d = x /\ is_new d = p x) ->
  Forall2 (fun x d => f x = Ok d) xs ds ->
  map present_record (List.filter is_new ds) = List.filter p xs.
Proof.
  intros Hf. induction 1 as [|x d xs ds Hx _ IH]; simpl; [reflexivity|].
  destruct (Hf x d Hx) as [Hp Hn]. rewrite Hn.
  destruct (p x); simpl; by rewrite ?Hp, IH.
Qed.

Lemma Forall2_filter_map_high (lows : list value) (xs : list value)
    (ds : list Diff) :
  Forall2 (fun x d => high_pair_entry lows x = Ok d) xs ds ->
  map present_record (List.filter is_new ds) = List.filter (missing_in lows) xs.
Proof.
  induction 1 as [|x d xs ds Hx _ IH]; simpl; [reflexivity|].
  apply high_pair_entry_inv in Hx as (_ & Hp & Hn). rewrite <- Hn.
  destruct (is_new d); simpl; by rewrite ?Hp, IH.
Qed.

Lemma Forall2_concat_jobs (lows : list value) (jobs' : list value)
    (dss : list (list Diff)) :
  Forall2 (fun job ds => job_entries lows job = Ok ds) jobs' dss ->
  map present_record (List.filter is_new (concat dss)) =
    flat_map (job_objs lows) jobs' /\
  length (concat dss) =
    length jobs' + length (List.filter has_result jobs').
Proof.
  induction 1 as [|job ds jobs' dss Hj _ [IH1 IH2]]; simpl; [by split|].
  apply job_entries_inv in Hj as (_ & Hobjs & Hlen).
  rewrite List.filter_app, map_app, Hobjs, IH1, length_app, Hlen, IH2.
  split; [reflexivity|]. destruct (has_result job); simpl; lia.
Qed.

End PassOrderFacts.

(** X4.  The state of a pass that returns is the concatenation, in this
    order, of one entry for each low-side project, each low-side request and
    each low-side user code that the lookups hold (the record with what the
    high side has under its identity), then for each high-side job its entry
    (with what the low side has under its identity) followed at once by the
    entry of its result when that is no [ActionDataEmpty], then one entry
    for each high-side log; so the number of entries is the number of those
    records plus the number of jobs with such a result. *)
Theorem get_sync_state_order :
  forall (ne : PyNe value) (l h : Client) (st : State),
    get_sync_state l h = Ok st ->
    (exists ps rs cs js ls,
       diff_to_sync st = ps ++ rs ++ cs ++ concat js ++ ls /\
       Forall2 (low_pair (projects h)) (kept_records (projects l)) ps /\
       Forall2 (low_pair (requests h)) (kept_records (requests l)) rs /\
       Forall2 (low_pair (code h)) (kept_records (code l)) cs /\
       Forall2 (job_pair (jobs l)) (kept_records (jobs h)) js /\
       Forall2 (high_pair (logs l)) (kept_records (logs h)) ls) /\
    length (diff_to_sync st) =
      length (kept_records (projects l)) + length (kept_records (requests l)) +
      length (kept_records (code l)) + length (kept_records (jobs h)) +
      length (List.filter has_result (kept_records (jobs h))) +
      length (kept_records (logs h)).
Proof.
  intros ne l h st Hst. apply get_sync_state_entries in Hst.
  unfold pass_entries in Hst.
  apply bind_Ok in Hst as (ps & Hps & Hst). apply bind_Ok in Hst as (rs & Hrs & Hst).
  apply bind_Ok in Hst as (cs & Hcs & Hst). apply bind_Ok in Hst as (js & Hjs & Hst).
  apply bind_Ok in Hst as (ls & Hls & [= <-]).
  apply mapM_Forall2 in Hps, Hrs, Hcs, Hjs, Hls.
  split.
  - exists ps, rs, cs, js, ls. split; [reflexivity|].
    repeat split;
      (eapply Forall2_impl; [eassumption|]); simpl; intros x d Hd.
    + by apply low_pair_entry_inv in Hd as [? _].
    + by apply low_pair_entry_inv in Hd as [? _].
    + by apply low_pair_entry_inv in Hd as [? _].
    + by apply job_entries_inv in Hd as [? _].
    + by apply high_pair_entry_inv in Hd as [? _].
  - rewrite !length_app.
    rewrite <- (Forall2_length _ _ _ Hps), <- (Forall2_length _ _ _ Hrs),
      <- (Forall2_length _ _ _ Hcs), <- (Forall2_length _ _ _ Hls).
    destruct (Forall2_concat_jobs _ _ _ Hjs) as [_ ->]. lia.
Qed.

Lemma get_sync_state_order_witness :
  (exists ps rs cs js ls,
     diff_to_sync jobs_state = ps ++ rs ++ cs ++ concat js ++ ls /\
     Forall2 (low_pair (projects high_jobs_client))
       (kept_records (projects low_jobs_client)) ps /\
     Forall2 (low_pair (requests high_jobs_client))
       (kept_records (requests low_jobs_client)) rs /\
     Forall2 (low_pair (code high_jobs_client))
       (kept_records (code low_jobs_client)) cs /\
     Forall2 (job_pair (jobs low_jobs_client))
       (kept_records (jobs high_jobs_client)) js /\
     Forall2 (high_pair (logs low_jobs_client))
       (kept_records (logs high_jobs_client)) ls) /\
  length (diff_to_sync jobs_state) =
    length (kept_records (projects low_jobs_client)) +
    length (kept_records (requests low_jobs_client)) +
    length (kept_records (code low_jobs_client)) +
    length (kept_records (jobs high_jobs_client)) +
    length (List.filter has_result (kept_records (jobs high_jobs_client))) +
    length (kept_records (logs high_jobs_client)).
Proof.
  apply (get_sync_state_order value_ne low_jobs_client high_jobs_client).
  reflexivity.
Defined.

Lemma pass_entries_objs_to_sync (ne : PyNe value) (l h : Client)
    (ds : list Diff) :
  pass_entries l h = Ok ds ->
  map present_record (List.filter is_new ds) =
    List.filter (missing_in (projects h)) (kept_records (projects l)) ++
    List.filter (missing_in (requests h)) (kept_records (requests l)) ++
    List.filter (missing_in (code h)) (kept_records (code l)) ++
    flat_map (job_objs (jobs l)) (kept_records (jobs h)) ++
    List.filter (missing_in (logs l)) (kept_records (logs h)).
Proof.
  unfold pass_entries. intros Hst.
  apply bind_Ok in Hst as (ps & Hps & Hst). apply bind_Ok in Hst as (rs & Hrs & Hst).
  apply bind_Ok in Hst as (cs & Hcs & Hst). apply bind_Ok in Hst as (js & Hjs & Hst).
  apply bind_Ok in Hst as (ls & Hls & Hst). injection Hst as Hst.
  apply mapM_Forall2 in Hps, Hrs, Hcs, Hjs, Hls.
  rewrite <- Hst, !List.filter_app, !map_app.
  assert (Hlow : forall highs x d, low_pair_entry highs x = Ok d ->
            present_record d = x /\ is_new d = missing_in highs x)
    by (intros highs x d Hd; by apply low_pair_entry_inv in Hd as (_ & ? & ?)).
  rewrite (Forall2_filter_map _ _ _ _ (Hlow (projects h)) Hps).
  rewrite (Forall2_filter_map _ _ _ _ (Hlow (requests h)) Hrs).
  rewrite (Forall2_filter_map _ _ _ _ (Hlow (code h)) Hcs).
  rewrite (Forall2_filter_map_high _ _ _ Hls).
  by destruct (Forall2_concat_jobs _ _ _ Hjs) as [-> _].
Qed.



(** ** The lookups that [dictify] builds *)

Lemma dict_setitem_fresh (d : pydict) (k : UID) (v : value) :
  dict_get d k = None -> dict_setitem k v d = d ++ [(k, v)].
Proof.
  induction d as [|[k0 v0] d IH]; simpl; [reflexivity|].
  destruct (k0 =? k)%N; [discriminate|]. intros Hd. by rewrite IH.
Qed.

Lemma In_dict_get (d : pydict) (k : UID) (v : value) :
  List.NoDup (map fst d) -> In (k, v) d -> dict_get d k = Some v.
Proof.
  induction d as [|[k0 v0] d IH]; simpl; [tauto|].
  intros Hnd. inversion Hnd as [|? ? Hk0 Hnd']; subst.
  intros [[= -> ->]|Hin].
  - by rewrite N.eqb_refl.
  - destruct (N.eqb_spec k0 k) as [->|]; [|by apply IH].
    exfalso. apply Hk0. by apply (in_map fst) in Hin.
Qed.

Lemma dictify_raises (objs : list value) (e : exn) :
  dictify objs = Raise e -> e = AttributeError "id".
Proof.
  unfold dictify. generalize (@nil (UID * value)) as acc.
  induction objs as [|v objs IH]; intros acc; simpl; [discriminate|].
  destruct v; simpl; try (by intros [= <-]). apply IH.
Qed.

Lemma dictify_values_unique (objs : list value) (d : pydict) :
  dictify objs = Ok d -> NoDup (map get_id objs) -> dict_values d = objs.
Proof.
  unfold dictify. revert d. induction objs as [|v objs IH] using rev_ind;
    intros d.
  - simpl. by intros [= <-].
  - rewrite for_each_app. intros Hb Hnd.
    apply bind_Ok in Hb as (d0 & Hd0 & Hb). simpl in Hb.
    apply bind_Ok in Hb as (d1 & Hb & [= <-]).
    apply bind_Ok in Hb as (k & Hk & [= <-]).
    rewrite map_app in Hnd. apply NoDup_app in Hnd as (Hnd0 & Hfresh & _).
    destruct (dictify_spec objs d0 Hd0) as [_ Hget].
    rewrite dict_setitem_fresh.
    + unfold dict_values in *. rewrite map_app. simpl. by rewrite (IH d0).
    + rewrite Hget. destruct (record_of objs k) as [w|] eqn:Hw; [|reflexivity].
      apply record_of_Some in Hw as [Hin Hid]. exfalso.
      apply (Hfresh (Ok k)).
      * apply list_elem_of_In. rewrite <- Hid. by apply in_map.
      * simpl. rewrite Hk. by left.
Qed.

(** X6.  [dictify] returns exactly when every object of the list has an
    [id], and raises the [AttributeError] for [id] otherwise.  The dict it
    returns has no key twice; every value is an object of the list, stored
    under its own [id]; the value under an [id] is the last object of the
    list with that [id]; and when no two objects of the list share an [id]
    the values of the dict are the list itself, in its order. *)
Theorem dictify_lookup :
  forall objs : list value,
    ((forall v, In v objs -> exists k, get_id v = Ok k) <->
     exists d, dictify objs = Ok d) /\
    (forall e, dictify objs = Raise e -> e = AttributeError "id") /\
    (forall d, dictify objs = Ok d ->
       NoDup (map fst d) /\
       (forall k v, In (k, v) d -> get_id v = Ok k /\ In v objs) /\
       (forall k, dict_get d k = record_of objs k) /\
       (NoDup (map get_id objs) -> dict_values d = objs)).
Proof.
  intros objs. split; [|split].
  - split; [apply dictify_returns|]. intros [d Hd]. by apply (dictify_ids objs d).
  - apply dictify_raises.
  - intros d Hd. destruct (dictify_spec objs d Hd) as [Hnd Hget].
    split; [by apply NoDup_ListNoDup|]. split; [|split].
    + intros k v Hin. apply In_dict_get in Hin; [|assumption].
      rewrite Hget in Hin. apply record_of_Some in Hin. tauto.
    + exact Hget.
    + by apply dictify_values_unique.
Qed.

Lemma dictify_lookup_witness :
  dict_values
    [(1%N, sample_job 1%N "done" empty_result);
     (2%N, sample_job 2%N "running" (sample_action_object 7%N))] =
  jobs high_jobs_client.
Proof.
  destruct (dictify_lookup (jobs high_jobs_client)) as (_ & _ & Hd).
  destruct (Hd [(1%N, sample_job 1%N "done" empty_result);
                (2%N, sample_job 2%N "running" (sample_action_object 7%N))]
              eq_refl) as (_ & _ & _ & Hvalues).
  apply Hvalues. simpl. apply NoDup_cons. split.
  - intros Hin. apply list_elem_of_singleton in Hin. discriminate.
  - apply NoDup_singleton.
Defined.

(** ** A client reconciled with itself *)

Section SelfFacts.

Context {ne : PyNe value}.

Lemma get_sync_state_dictify (l h : Client) (st : State) :
  get_sync_state l h = Ok st ->
  forall coll, In coll [projects; requests; code; jobs; logs] ->
    forall c, In c [l; h] -> dictify (coll c) = Ok (dict_of (coll c)).
Proof.
  unfold get_sync_state. intros Hb.
  apply bind_Ok in Hb as (lp & Hlp & Hb). apply bind_Ok in Hb as (hp & Hhp & Hb).
  apply bind_Ok in Hb as (s1 & H1 & Hb).
  apply bind_Ok in Hb as (lr & Hlr & Hb). apply bind_Ok in Hb as (hr & Hhr & Hb).
  apply bind_Ok in Hb as (s2 & H2 & Hb).
  apply bind_Ok in Hb as (lc & Hlc & Hb). apply bind_Ok in Hb as (hc & Hhc & Hb).
  apply bind_Ok in Hb as (s3 & H3 & Hb).
  apply bind_Ok in Hb as (lj & Hlj & Hb). apply bind_Ok in Hb as (hj & Hhj & Hb).
  apply bind_Ok in Hb as (s4 & H4 & Hb).
  apply bind_Ok in Hb as (ll & Hll & Hb). apply bind_Ok in Hb as (hl & Hhl & H5).
  intros coll Hcoll c Hc. simpl in Hcoll, Hc.
  destruct Hc as [<-|[<-|[]]];
    destruct Hcoll as [<-|[<-|[<-|[<-|[<-|[]]]]]];
    match goal with
    | H : dictify ?x = Ok ?d |- dictify ?x = _ =>
        rewrite H; f_equal; by apply dictify_dict_of
    end.
Qed.

Lemma kept_records_record_of (objs : list value) (v : value) :
  dictify objs = Ok (dict_of objs) -> In v (kept_records objs) ->
  exists k, get_id v = Ok k /\ record_of objs k = Some v /\ In v objs.
Proof.
  intros Hd Hv. destruct (dict_values_record_of _ _ _ Hd Hv) as (k & Hk & Hid).
  exists k. split; [assumption|]. split; [assumption|].
  by apply record_of_Some in Hk as [? _].
Qed.

Lemma missing_in_kept (objs : list value) (v : value) :
  dictify objs = Ok (dict_of objs) -> In v (kept_records objs) ->
  missing_in objs v = false.
Proof.
  intros Hd Hv.
  destruct (kept_records_record_of _ _ Hd Hv) as (k & Hk & Hr & _).
  unfold missing_in. by rewrite Hk, Hr.
Qed.

Lemma classify_self (obj : value) (d : Diff) :
  (forall x : value, py_ne x x = false) ->
  is_None obj = false -> classify obj obj = Ok d ->
  low_obj d = high_obj d /\ merge_state d = "SAME"%string /\ diff_list d = [].
Proof.
  intros Hirr Hn Hd. apply classify_inv in Hd as (Hl & Hh & _ & Hcase).
  split; [congruence|].
  destruct Hcase as [(Hor & _) | (_ & _ & f & Hf & Hdl & Hst)].
  - rewrite Hn in Hor. discriminate.
  - assert (diff_list d = []) as Hnil.
    { apply (comparator_same f obj); [assumption | | assumption].
      destruct (func_dict_get_Some _ f Hf) as [_ Hin]. simpl in Hin. simpl.
      tauto. }
    by rewrite Hst, Hnil.
Qed.

Lemma pair_entry_self (c : Client) (objs : list value) (obj : value) (d : Diff) :
  (forall x : value, py_ne x x = false) ->
  dictify objs = Ok (dict_of objs) -> In obj (kept_records objs) ->
  low_pair_entry objs obj = Ok d \/ high_pair_entry objs obj = Ok d ->
  self_entry c d.
Proof.
  intros Hirr Hd Hobj Hentry.
  destruct (kept_records_record_of _ _ Hd Hobj) as (k & Hk & Hr & _).
  left. apply (classify_self obj); [assumption | by eapply get_id_not_None |].
  unfold low_pair_entry, high_pair_entry in Hentry.
  rewrite Hk in Hentry. simpl in Hentry. rewrite Hr in Hentry. tauto.
Qed.


Lemma job_entries_self (c : Client) (job : value) (ds : list Diff) :
  (forall x : value, py_ne x x = false) ->
  dictify (jobs c) = Ok (dict_of (jobs c)) -> In job (kept_records (jobs c)) ->
  job_entries (jobs c) job = Ok ds -> Forall (self_entry c) ds.
Proof.
  intros Hirr Hd Hjob Hb. unfold job_entries in Hb.
  apply bind_Ok in Hb as (d & Hentry & Hb).
  apply bind_Ok in Hb as (r & Hr & Hb).
  assert (Hfirst : self_entry c d) by (eapply pair_entry_self; by eauto).
  destruct (isinstance r ActionDataEmpty); simpl in Hb.
  - injection Hb as <-. constructor; [assumption | constructor].
  - apply bind_Ok in Hb as (d' & Hd' & [= <-]).
    constructor; [assumption|]. constructor; [|constructor]. right.
    destruct (kept_records_record_of _ _ Hd Hjob) as (_ & _ & _ & Hin).
    unfold classify in Hd'. simpl in Hd'.
    destruct (is_None r); [discriminate|].
    destruct (get_type r) as [cl|]; simpl in Hd'; [|discriminate].
    injection Hd' as <-. simpl. by eauto.
Qed.

Lemma Forall2_In_r {A B} (R : A -> B -> Prop) (xs : list A) (ys : list B)
    (y : B) :
  Forall2 R xs ys -> In y ys -> exists x, In x xs /\ R x y.
Proof.
  induction 1 as [|x y' xs ys Hxy _ IH]; simpl; [tauto|].
  intros [<-|Hin]; [by eauto|].
  destruct (IH Hin) as (x' & Hx' & Hr). by eauto.
Qed.

Lemma flat_map_ext_In {A B} (f g : A -> list B) (xs : list A) :
  (forall x, In x xs -> f x = g x) -> flat_map f xs = flat_map g xs.
Proof.
  induction xs as [|x xs IH]; intros Hfg; simpl; [reflexivity|].
  rewrite Hfg by (by left). rewrite IH; [reflexivity|].
  intros y Hy. apply Hfg. by right.
Qed.

Lemma filter_none {A} (p : A -> bool) (xs : list A) :
  (forall x, In x xs -> p x = false) -> List.filter p xs = [].
Proof.
  induction xs as [|x xs IH]; intros Hp; simpl; [reflexivity|].
  rewrite Hp by (by left). apply IH. intros y Hy. apply Hp. by right.
Qed.

End SelfFacts.

(** X7.  When no value is [!=] to itself, a pass over one client on both
    sides that returns finds no difference: every entry of the state is a
    record paired with itself in state ["SAME"] without differences, or the
    ["NEW"] entry of the result of one of the jobs; no entry is in state
    ["DIFF"]; and [objs_to_sync] returns the results of the jobs that are
    no [ActionDataEmpty], and nothing else. *)
Theorem self_sync_same :
  forall (ne : PyNe value) (c : Client) (st : State),
    (forall x : value, py_ne x x = false) ->
    get_sync_state c c = Ok st ->
    Forall (self_entry c) (diff_to_sync st) /\
    (forall d, In d (diff_to_sync st) -> merge_state d <> "DIFF"%string) /\
    objs_to_sync st = flat_map result_objs (kept_records (jobs c)).
Proof.
  intros ne c st Hirr Hst.
  pose proof (get_sync_state_dictify c c st Hst) as Hdict.
  assert (Hd : forall coll, In coll [projects; requests; code; jobs; logs] ->
                 dictify (coll c) = Ok (dict_of (coll c)))
    by (intros coll Hcoll; apply (Hdict coll Hcoll c); by left).
  apply get_sync_state_entries in Hst.
  assert (Hself : Forall (self_entry c) (diff_to_sync st)).
  { unfold pass_entries in Hst.
    apply bind_Ok in Hst as (ps & Hps & Hst).
    apply bind_Ok in Hst as (rs & Hrs & Hst).
    apply bind_Ok in Hst as (cs & Hcs & Hst).
    apply bind_Ok in Hst as (js & Hjs & Hst).
    apply bind_Ok in Hst as (ls & Hls & [= <-]).
    apply mapM_Forall2 in Hps, Hrs, Hcs, Hjs, Hls.
    assert (Hlow : forall coll ds,
              In coll [projects; requests; code; jobs; logs] ->
              Forall2 (fun x d => low_pair_entry (coll c) x = Ok d)
                (kept_records (coll c)) ds ->
              Forall (self_entry c) ds).
    { intros coll ds Hcoll Hds. apply Forall_forall. intros d Hin.
      apply list_elem_of_In in Hin.
      destruct (Forall2_In_r _ _ _ _ Hds Hin) as (x & Hx & Hxd).
      apply (pair_entry_self c (coll c) x); by auto. }
    rewrite !Forall_app. repeat split.
    - apply (Hlow projects); [simpl; tauto | assumption].
    - apply (Hlow requests); [simpl; tauto | assumption].
    - apply (Hlow code); [simpl; tauto | assumption].
    - apply Forall_forall. intros d Hin. apply list_elem_of_In, in_concat in Hin.
      destruct Hin as (ds & Hds & Hin).
      destruct (Forall2_In_r _ _ _ _ Hjs Hds) as (job & Hjob & Hentries).
      assert (Hall : Forall (self_entry c) ds)
        by (apply (job_entries_self c job); auto; apply Hd; simpl; tauto).
      rewrite Forall_forall in Hall. by apply Hall, list_elem_of_In.
    - apply Forall_forall. intros d Hin. apply list_elem_of_In in Hin.
      destruct (Forall2_In_r _ _ _ _ Hls Hin) as (x & Hx & Hxd).
      apply (pair_entry_self c (logs c) x); auto. apply Hd. simpl. tauto. }
  split; [assumption|]. split.
  - intros d Hin. rewrite Forall_forall in Hself.
    apply list_elem_of_In, Hself in Hin.
    destruct Hin as [(_ & -> & _) | (_ & -> & _)]; discriminate.
  - rewrite objs_to_sync_eq, (pass_entries_objs_to_sync ne c c) by assumption.
    rewrite !filter_none;
      try (intros x Hx; apply missing_in_kept; [apply Hd; simpl; tauto | done]).
    simpl. rewrite app_nil_r. apply flat_map_ext_In. intros job Hjob.
    unfold job_objs. rewrite missing_in_kept; [reflexivity | | assumption].
    apply Hd. simpl. tauto.
Qed.

Lemma self_sync_same_witness :
  exists st,
    get_sync_state (ne := value_ne) high_jobs_client high_jobs_client = Ok st /\
    Forall (self_entry high_jobs_client) (diff_to_sync st) /\
    (forall d, In d (diff_to_sync st) -> merge_state d <> "DIFF"%string) /\
    objs_to_sync st = flat_map result_objs (kept_records (jobs high_jobs_client)).
Proof.
  eexists. split; [reflexivity|].
  apply (self_sync_same value_ne high_jobs_client).
  - intros x. unfold py_ne, value_ne. by rewrite value_eqb_refl.
  - reflexivity.
Defined.

(** ** Consistent entries *)

Section ConsistencyFacts.

Context {ne : PyNe value}.

Lemma check_same_id_Ok (low high : value) (u : unit) :
  check_same_id low high = Ok u ->
  exists k, get_id low = Ok k /\ get_id high = Ok k.
Proof.
  unfold check_same_id. intros Hb. apply bind_Ok in Hb as (i & Hi & Hb).
  apply bind_Ok in Hb as (j & Hj & Hb).
  destruct (N.eqb_spec i j) as [->|]; [by eauto | discriminate].
Qed.

Lemma comparator_same_id (f : comparator) (low high : value)
    (diffs : list DiffAttr) :
  In f [get_diff_request; get_diff_user_code; get_diff_log; get_diff_job;
        get_diff_action_object] ->
  f low high = Ok diffs ->
  exists k, get_id low = Ok k /\ get_id high = Ok k.
Proof.
  intros Hf. simpl in Hf.
  destruct Hf as [<-|[<-|[<-|[<-|[<-|[]]]]]];
    unfold get_diff_request, get_diff_user_code, get_diff_log, get_diff_job,
      get_diff_action_object;
    intros Hb; apply bind_Ok in Hb as (u & Hu & _);
    by apply (check_same_id_Ok _ _ u).
Qed.

Lemma classify_consistent (low high : value) (d : Diff) :
  classify low high = Ok d -> entry_consistent d.
Proof.
  intros Hd. apply classify_inv in Hd as (Hl & Hh & Ht & Hcase).
  unfold entry_consistent, both_present. rewrite Hl, Hh.
  destruct Hcase as [(Hor & _ & Hnew & Hnil) | (Hnl & Hnh & f & Hf & Hdl & Hst)].
  - rewrite Hnew, Hnil. split; [by left|]. split; [split; [done | discriminate]|].
    split; [assumption|].
    intros [Hnl Hnh]. rewrite Hnl, Hnh in Hor. discriminate.
  - destruct (func_dict_get_Some _ f Hf) as [Hc Hin].
    split; [|split; [|split; [assumption|]]].
    + right. destruct (state_of_cases (diff_list d)) as [[_ Hs]|[_ Hs]];
        rewrite Hst, Hs; auto.
    + rewrite Hst. destruct (diff_list d); simpl; split; done.
    + intros _. split; [assumption|].
      apply (comparator_same_id f low high (diff_list d)); [|assumption].
      simpl in Hin. simpl. tauto.
Qed.

Lemma built_consistent (st : State) :
  built st -> Forall entry_consistent (diff_to_sync st).
Proof.
  induction 1 as [|low high st st' _ IH Hadd]; [constructor|].
  apply add_obj_inv in Hadd as (d & Hd & ->). simpl.
  apply Forall_app. split; [assumption|]. constructor; [|constructor].
  by eapply classify_consistent.
Qed.

Lemma get_sync_state_built (l h : Client) (st : State) :
  get_sync_state l h = Ok st -> built st.
Proof. intros Hst. by apply get_sync_state_inv in Hst as (Hb & _). Qed.

End ConsistencyFacts.

(** X8.  Every entry of a state built from the empty state by [add_obj],
    and so every entry of the state a pass returns, is consistent: its
    merge state is ["NEW"], ["SAME"] or ["DIFF"]; its difference list is
    not empty exactly when the state is ["DIFF"]; its type tag is the class
    of the record it holds ([low_obj] when present); and an entry with both
    records holds two records with the same [id], of a category with a
    registered comparator, so never two projects or two action objects. *)
Theorem built_entries_consistent :
  forall ne : PyNe value,
    (forall low high st st',
       add_obj low high st = Ok st' ->
       exists d, st' = append_diff st d /\ entry_consistent d) /\
    (forall st, built st -> Forall entry_consistent (diff_to_sync st)) /\
    (forall l h st,
       get_sync_state l h = Ok st ->
       Forall entry_consistent (diff_to_sync st)).
Proof.
  intros ne. split; [|split].
  - intros low high st st' Hadd. apply add_obj_inv in Hadd as (d & Hd & ->).
    exists d. split; [reflexivity | by eapply classify_consistent].
  - apply built_consistent.
  - intros l h st Hst. by apply built_consistent, (get_sync_state_built l h).
Qed.

Lemma built_entries_consistent_witness :
  Forall entry_consistent (diff_to_sync jobs_state).
Proof.
  destruct (built_entries_consistent value_ne) as (_ & _ & Hpass).
  apply (Hpass low_jobs_client high_jobs_client). reflexivity.
Defined.

(** X9.  Whenever [add_obj] returns, the helper [get_merge_state], given
    the same two objects and the type tag of the appended entry, returns
    the merge state of that entry.  The two differ where [add_obj] raises:
    for two absent objects [get_merge_state] returns the string ["Error"],
    and with exactly one object absent it returns ["NEW"] whatever the
    other object is. *)
Theorem get_merge_state_agrees :
  forall ne : PyNe value,
    (forall low high st st',
       add_obj low high st = Ok st' ->
       exists d, st' = append_diff st d /\
                 get_merge_state low high (obj_type d) = Ok (merge_state d)) /\
    (forall c, get_merge_state VNone VNone c = Ok "Error"%string) /\
    (forall v c,
       is_None v = false ->
       get_merge_state v VNone c = Ok "NEW"%string /\
       get_merge_state VNone v c = Ok "NEW"%string).
Proof.
  intros ne. split; [|split].
  - intros low high st st' Hadd. apply add_obj_inv in Hadd as (d & Hd & ->).
    exists d. split; [reflexivity|].
    apply classify_inv in Hd as (_ & _ & _ & Hcase). unfold get_merge_state.
    destruct Hcase as [(Hor & Hand & -> & _) | (Hnl & Hnh & f & Hf & Hdl & ->)].
    + by rewrite Hand, Hor.
    + rewrite Hnl, Hnh. simpl. rewrite Hf, Hdl. simpl.
      by destruct (diff_list d).
  - reflexivity.
  - intros v c Hv. unfold get_merge_state. simpl. by rewrite Hv.
Qed.

Lemma get_merge_state_agrees_witness :
  exists d,
    mkState [mkDiff (sample_log 1%N "a" "b") (sample_log 1%N "a" "c") SyftLog
               "DIFF" [mkDiffAttr "stderr" (VStr "b") (VStr "c")]] =
      append_diff (mkState []) d /\
    get_merge_state (ne := value_ne) (sample_log 1%N "a" "b")
      (sample_log 1%N "a" "c") (obj_type d) = Ok (merge_state d).
Proof.
  destruct (get_merge_state_agrees value_ne) as (Hadd & _ & _).
  apply (Hadd (sample_log 1%N "a" "b") (sample_log 1%N "a" "c") (mkState [])).
  reflexivity.
Defined.

(** ** The attribute check *)

Section CheckDiffFacts.

Context {ne : PyNe value}.

Lemma compare_attrs_inv (names : list string) (low high : value)
    (acc out : list DiffAttr) :
  compare_attrs names low high acc = Ok out ->
  has_attrs names low /\ has_attrs names high /\
  out = acc ++ attr_diffs names low high.
Proof.
  unfold compare_attrs, attr_diffs, has_attrs. revert acc.
  induction names as [|name names IH]; intros acc; simpl.
  - intros [= <-]. rewrite app_nil_r. tauto.
  - intros Hb. apply bind_Ok in Hb as (acc' & Hb & Hrest).
    apply bind_Ok in Hb as (a & Ha & Hb). apply bind_Ok in Hb as (b & Hb' & Hacc).
    injection Hacc as <-. rewrite Ha, Hb'.
    destruct (IH _ Hrest) as (Hl & Hh & ->).
    split; [intros n [<-|Hn]; by eauto|]. split; [intros n [<-|Hn]; by eauto|].
    destruct (py_ne a b); [by rewrite <- app_assoc | reflexivity].
Qed.







End CheckDiffFacts.



(** ** What a comparator reports *)

Section ReportFacts.

Context {ne : PyNe value}.






Lemma first_status_inv (code v : value) :
  first_status code = Ok v ->
  exists status items,
    getattr code "status" = Ok status /\
    getattr status "status_dict" = Ok (VDict items) /\
    exists k rest, items = (k, v) :: rest.
Proof.
  unfold first_status. intros Hb. apply bind_Ok in Hb as (s & Hs & Hb).
  apply bind_Ok in Hb as (sd & Hsd & Hb). apply bind_Ok in Hb as (vs & Hvs & Hb).
  destruct sd as [| | | | |items|]; try discriminate.
  injection Hvs as <-. destruct items as [|[k x] rest]; [discriminate|].
  injection Hb as ->. by eauto 10.
Qed.

End ReportFacts.



(** ** Algebra of the two diff primitives *)

Section DiffListAlgebra.

Context {A : Type} {ne : PyNe A}.

Lemma filter_nil_iff {B} (p : B -> bool) (xs : list B) :
  List.filter p xs = [] <-> forall x, In x xs -> p x = false.
Proof.
  induction xs as [|x xs IH]; simpl; [tauto|].
  destruct (p x) eqn:Hp.
  - split; [discriminate|]. intros Hall. specialize (Hall x (or_introl eq_refl)).
    congruence.
  - rewrite IH. split; [intros Hall y [<-|Hy]; auto | auto].
Qed.

Lemma range_nil_iff (a b : nat) : range a b = [] <-> b <= a.
Proof.
  unfold range. destruct (b - a) eqn:Hd; simpl; split; try lia; try done.
Qed.

Lemma get_diff_list_empty (low high : list A) :
  get_diff_list low high = Ok ([], [], []) <->
  length low = length high /\
  forall i a b, low !! i = Some a -> high !! i = Some b -> py_ne a b = false.
Proof.
  rewrite get_diff_list_eq. split.
  - intros [= Hf Hl Hh]. apply range_nil_iff in Hl, Hh.
    split; [lia|]. intros i a b Ha Hb.
    rewrite filter_nil_iff in Hf. specialize (Hf i). unfold differs_at in Hf.
    rewrite Ha, Hb in Hf. apply Hf, in_seq. unfold common_length.
    apply lookup_lt_Some in Ha, Hb. lia.
  - intros [Hlen Hall]. f_equal. f_equal; [f_equal|].
    + apply filter_nil_iff. intros i _. unfold differs_at.
      destruct (low !! i) as [a|] eqn:Ha; [|reflexivity].
      destruct (high !! i) as [b|] eqn:Hb; [|reflexivity]. by eapply Hall.
    + apply range_nil_iff. lia.
    + apply range_nil_iff. lia.
Qed.

Lemma differs_at_sym (low high : list A) (i : nat) :
  (forall a b, py_ne a b = py_ne b a) ->
  differs_at high low i = differs_at low high i.
Proof.
  intros Hsym. unfold differs_at.
  destruct (low !! i), (high !! i); try reflexivity. apply Hsym.
Qed.

End DiffListAlgebra.

(** X12.  The ordered-collection diff reports nothing exactly when the two
    lists have the same length and no two elements at the same index are
    [!=]; when [!=] is the negation of equality, that is exactly when the
    two lists are equal.  Swapping the two lists swaps the low-only and the
    high-only indices, and keeps the changed indices when [!=] is
    symmetric. *)
Theorem get_diff_list_algebra :
  forall (A : Type) (ne : PyNe A) (low high : list A),
    (get_diff_list low high = Ok ([], [], []) <->
     length low = length high /\
     forall i a b, low !! i = Some a -> high !! i = Some b ->
                   py_ne a b = false) /\
    ((forall a b, py_ne a b = false <-> a = b) ->
     (get_diff_list low high = Ok ([], [], []) <-> low = high)) /\
    (forall changed low_only high_only,
       get_diff_list low high = Ok (changed, low_only, high_only) ->
       exists changed',
         get_diff_list high low = Ok (changed', high_only, low_only) /\
         ((forall a b, py_ne a b = py_ne b a) -> changed' = changed)).
Proof.
  intros A ne low high. split; [apply get_diff_list_empty|]. split.
  - intros Hne. rewrite get_diff_list_empty. split.
    + intros [Hlen Hall]. apply list_eq_same_length with (length low);
        [by symmetry | reflexivity |].
      intros i a b _ Ha Hb. apply Hne. by eapply Hall.
    + intros ->. split; [reflexivity|]. intros i a b Ha Hb.
      apply Hne. congruence.
  - intros changed low_only high_only. rewrite !get_diff_list_eq.
    intros [= <- <- <-]. eexists. split; [reflexivity|]. intros Hsym.
    unfold common_length. rewrite Nat.min_comm. apply List.filter_ext.
    intros i. by apply differs_at_sym.
Qed.

Section DiffDictAlgebra.

Context `{Countable K} {V : Type} {ne : PyNe V}.



End DiffDictAlgebra.


Lemma get_diff_list_algebra_witness :
  get_diff_list (ne := Z_ne) [1; 2]%Z [1; 2]%Z = Ok ([], [], []) <->
  [1; 2]%Z = [1; 2]%Z.
Proof.
  destruct (get_diff_list_algebra Z Z_ne [1; 2]%Z [1; 2]%Z) as (_ & Heq & _).
  apply Heq. intros a b. unfold py_ne, Z_ne.
  rewrite Bool.negb_false_iff. apply Z.eqb_eq.
Defined.


(** ** Requests and user codes *)

Section RequestFacts.

Context {ne : PyNe value}.

Lemma check_same_id_same (low high : value) (k : UID) :
  get_id low = Ok k -> get_id high = Ok k -> check_same_id low high = Ok tt.
Proof.
  intros Hl Hh. unfold check_same_id. rewrite Hl, Hh. simpl.
  by rewrite N.eqb_refl.
Qed.



End RequestFacts.



(** X15.  What [get_diff_user_code] returns is the differences of the
    scalar attributes in their order, then a [DiffAttr] named ["status"]
    when the first values of the two [status_dict]s are [!=]: only the
    first value of each [status_dict] is compared.  On two codes with the
    same [id] and all scalar attributes, it raises [IndexError] when the
    [status_dict] of the low code is empty. *)
Theorem get_diff_user_code_status :
  forall (ne : PyNe value) (low high : value),
    (forall diffs,
       get_diff_user_code low high = Ok diffs ->
       exists sl sh,
         first_status low = Ok sl /\ first_status high = Ok sh /\
         diffs = attr_diffs user_code_basic_attrs low high ++
                 (if py_ne sl sh then [mkDiffAttr "status" sl sh] else [])) /\
    (forall code status k v rest,
       getattr code "status" = Ok status ->
       getattr status "status_dict" = Ok (VDict ((k, v) :: rest)) ->
       first_status code = Ok v) /\
    (forall k status,
       get_id low = Ok k -> get_id high = Ok k ->
       has_attrs user_code_basic_attrs low ->
       has_attrs user_code_basic_attrs high ->
       getattr low "status" = Ok status ->
       getattr status "status_dict" = Ok (VDict []) ->
       get_diff_user_code low high = Raise IndexError).
Proof.
  intros ne low high. split; [|split].
  - intros diffs Hd. unfold get_diff_user_code in Hd.
    apply bind_Ok in Hd as (u & _ & Hd). apply bind_Ok in Hd as (d1 & H1 & Hd).
    apply bind_Ok in Hd as (sl & Hsl & Hd). apply bind_Ok in Hd as (sh & Hsh & Hd).
    apply compare_attrs_inv in H1 as (_ & _ & ->). injection Hd as <-.
    exists sl, sh. split; [assumption|]. split; [assumption|].
    destruct (py_ne sl sh); simpl; by rewrite ?app_nil_r.
  - intros code status k v rest Hs Hd. unfold first_status.
    by rewrite Hs; simpl; rewrite Hd.
  - intros k status Hkl Hkh Hl Hh Hs Hd. unfold get_diff_user_code.
    rewrite (check_same_id_same low high k) by assumption. simpl.
    rewrite compare_attrs_eq by assumption. simpl.
    unfold first_status. by rewrite Hs; simpl; rewrite Hd.
Qed.

Lemma get_diff_user_code_status_witness :
  get_diff_user_code (ne := value_ne) (sample_code 1%N [])
    (sample_code 1%N [(VInt 0, VStr "approved")]) = Raise IndexError.
Proof.
  destruct (get_diff_user_code_status value_ne (sample_code 1%N [])
              (sample_code 1%N [(VInt 0, VStr "approved")])) as (_ & _ & Hempty).
  apply (Hempty 1%N (VObj OtherClass 0%N [("status_dict"%string, VDict [])]));
    try reflexivity;
    intros name Hname; simpl in Hname;
    repeat (destruct Hname as [<-|Hname]; [by eexists|]); destruct Hname.
Defined.

(** ** Displayed states *)

Lemma append_cons (a : Ascii.ascii) (s t : string) :
  String a s +:+ t = String a (s +:+ t).
Proof. reflexivity. Qed.

Lemma append_nil_l (t : string) : "" +:+ t = t.
Proof. reflexivity. Qed.

Lemma append_nil_r (s : string) : s +:+ "" = s.
Proof. induction s as [|a s IH]; [reflexivity|]. by rewrite append_cons, IH. Qed.

Lemma append_assoc (s t u : string) : (s +:+ t) +:+ u = s +:+ t +:+ u.
Proof.
  induction s as [|a s IH]; [reflexivity|]. by rewrite !append_cons, IH.
Qed.

Lemma length_append (s t : string) :
  String.length (s +:+ t) = String.length s + String.length t.
Proof.
  induction s as [|a s IH]; [reflexivity|]. rewrite append_cons. simpl.
  by rewrite IH.
Qed.

Lemma substring_prefix (s t : string) :
  String.substring 0 (String.length s) (s +:+ t) = s.
Proof.
  induction s as [|a s IH].
  - rewrite append_nil_l. by destruct t.
  - rewrite append_cons. simpl. by rewrite IH.
Qed.

Lemma drop_last_append (s t : string) :
  drop_last (String.length t) (s +:+ t) = s.
Proof.
  unfold drop_last. rewrite length_append.
  replace (String.length s + String.length t - String.length t)
    with (String.length s) by lia.
  apply substring_prefix.
Qed.

Lemma fold_left_append (items : list string) (sep text : string) :
  fold_left (fun text item => text +:+ (item +:+ sep)) items text =
  text +:+ String.concat "" (map (fun item => item +:+ sep) items).
Proof.
  revert text. induction items as [|x items IH]; intros text; simpl.
  - by rewrite append_nil_r.
  - rewrite IH, append_assoc. f_equal.
    destruct items as [|y items]; simpl; [by rewrite append_nil_r|].
    by rewrite append_nil_l.
Qed.

Lemma concat_join (items : list string) (sep : string) :
  items <> [] ->
  String.concat "" (map (fun item => item +:+ sep) items) =
  join sep items +:+ sep.
Proof.
  induction items as [|x items IH]; [done|]. intros _.
  destruct items as [|y items]; [reflexivity|].
  change (String.concat "" (map (fun item => item +:+ sep) (x :: y :: items)))
    with ((x +:+ sep) +:+ "" +:+
          String.concat "" (map (fun item => item +:+ sep) (y :: items))).
  rewrite append_nil_l, IH by discriminate.
  change (join sep (x :: y :: items)) with (x +:+ sep +:+ join sep (y :: items)).
  by rewrite !append_assoc.
Qed.

Section DisplayFacts.

Context {str : PyStr value}.

(** The text of a record with differences, for either side. *)
Lemma state_text_eq (name : string) (repr : DiffAttr -> string)
    (diffs : list DiffAttr) :
  (let attr_text := name +:+ "(" in
   let attr_text :=
     fold_left
       (fun attr_text diff =>
          attr_text +:+
          ((attr_name diff +:+ "=" +:+ repr diff +:+ ",") +:+ newline))
       diffs attr_text in
   if 0 <? length diffs then drop_last 2 attr_text +:+ ")"
   else attr_text +:+ ")") =
  state_text name (map (fun diff => attr_name diff +:+ "=" +:+ repr diff) diffs).
Proof.
  unfold state_text. cbv zeta.
  assert (Hfold : forall text,
    fold_left
      (fun attr_text diff =>
         attr_text +:+
         ((attr_name diff +:+ "=" +:+ repr diff +:+ ",") +:+ newline))
      diffs text =
    fold_left (fun text item => text +:+ (item +:+ ("," +:+ newline)))
      (map (fun diff => attr_name diff +:+ "=" +:+ repr diff) diffs) text).
  { induction diffs as [|e diffs IH]; intros text; simpl; [reflexivity|].
    rewrite IH. by rewrite !append_assoc. }
  rewrite Hfold, fold_left_append. clear Hfold.
  set (sep := "," +:+ newline).
  destruct diffs as [|e diffs]; simpl length.
  - simpl. by rewrite append_nil_r, append_assoc.
  - change (0 <? S (length diffs)) with true. cbv iota.
    rewrite concat_join by discriminate.
    rewrite <- (append_assoc (name +:+ "(")).
    change 2 with (String.length sep).
    rewrite drop_last_append. by rewrite !append_assoc.
Qed.

Lemma low_state_eq (d : Diff) :
  low_state d =
  if is_None (low_obj d) then "n/a"%string
  else if is_None (high_obj d) then "NEW"%string
  else state_text (object_type d)
         (map (fun e => attr_name e +:+ "=" +:+ py_str (low_attr e))
            (diff_list d)).
Proof.
  unfold low_state. destruct (is_None (low_obj d)); [reflexivity|].
  destruct (is_None (high_obj d)); [reflexivity|].
  apply (state_text_eq (object_type d) repr_low_side).
Qed.

Lemma high_state_eq (d : Diff) :
  high_state d =
  if is_None (high_obj d) then "n/a"%string
  else if is_None (low_obj d) then "NEW"%string
  else state_text (object_type d)
         (map (fun e => attr_name e +:+ "=" +:+ py_str (high_attr e))
            (diff_list d)).
Proof.
  unfold high_state. destruct (is_None (high_obj d)); [reflexivity|].
  destruct (is_None (low_obj d)); [reflexivity|].
  apply (state_text_eq (object_type d) repr_high_side).
Qed.

Lemma state_text_long (c : pyclass) (items : list string) :
  5 <= String.length (state_text (class_name c) items).
Proof.
  unfold state_text. rewrite !length_append.
  assert (3 <= String.length (class_name c)) by (destruct c; simpl; lia).
  simpl. lia.
Qed.

End DisplayFacts.

(** X16.  [low_state] is ["n/a"] exactly when the low object is absent, and
    ["NEW"] exactly when the low object is present and the high one absent;
    [high_state] likewise with the sides exchanged.  When both objects are
    present, each is the name of the class followed, in brackets, by
    [name=value] for each difference with the value of its side, with a
    comma and a line feed between them and none after the last. *)
Theorem displayed_states :
  forall (str : PyStr value) (d : Diff),
    (low_state d = "n/a"%string <-> is_None (low_obj d) = true) /\
    (high_state d = "n/a"%string <-> is_None (high_obj d) = true) /\
    (low_state d = "NEW"%string <->
     is_None (low_obj d) = false /\ is_None (high_obj d) = true) /\
    (high_state d = "NEW"%string <->
     is_None (high_obj d) = false /\ is_None (low_obj d) = true) /\
    (is_None (low_obj d) = false -> is_None (high_obj d) = false ->
     low_state d =
       state_text (object_type d)
         (map (fun e => attr_name e +:+ "=" +:+ py_str (low_attr e))
            (diff_list d)) /\
     high_state d =
       state_text (object_type d)
         (map (fun e => attr_name e +:+ "=" +:+ py_str (high_attr e))
            (diff_list d))).
Proof.
  intros str d. rewrite low_state_eq, high_state_eq. unfold object_type.
  assert (Hlong : forall items s,
            String.length s < 5 -> state_text (class_name (obj_type d)) items <> s).
  { intros items s Hs Heq. pose proof (state_text_long (obj_type d) items).
    rewrite Heq in *. lia. }
  destruct (is_None (low_obj d)), (is_None (high_obj d));
    repeat split; try done; try (intros [? ?]; done);
    try (intros Heq; exfalso; eapply Hlong; [|exact Heq]; simpl; lia);
    exfalso; (eapply Hlong; [|eassumption]); simpl; lia.
Qed.

Lemma displayed_states_witness :
  low_state (str := fun _ => "v"%string)
    (mkDiff (sample_log 1%N "a" "b") (sample_log 1%N "a" "c") SyftLog "DIFF"
       [mkDiffAttr "stderr" (VStr "b") (VStr "c")]) =
  "SyftLog(stderr=v)"%string.
Proof.
  destruct (displayed_states (fun _ => "v"%string)
              (mkDiff (sample_log 1%N "a" "b") (sample_log 1%N "a" "c")
                 SyftLog "DIFF" [mkDiffAttr "stderr" (VStr "b") (VStr "c")]))
    as (_ & _ & _ & _ & Hboth).
  destruct Hboth as [-> _]; reflexivity.
Defined.

Section DisplayEntryFacts.

Context {ne : PyNe value} {str : PyStr value}.

Lemma join_nonempty (sep : string) (items : list string) :
  items <> [] -> (forall item, In item items -> 1 <= String.length item) ->
  1 <= String.length (join sep items).
Proof.
  destruct items as [|x items]; [done|]. intros _ Hall.
  assert (1 <= String.length x) by (apply Hall; by left).
  destruct items as [|y items]; [assumption|].
  change (join sep (x :: y :: items)) with (x +:+ sep +:+ join sep (y :: items)).
  rewrite length_append. lia.
Qed.

Lemma state_text_empty (name : string) (items : list string) :
  (forall item, In item items -> 1 <= String.length item) ->
  state_text name items = name +:+ "()" <-> items = [].
Proof.
  intros Hall. split.
  - intros Heq. destruct items as [|x items]; [reflexivity|]. exfalso.
    apply (f_equal String.length) in Heq. unfold state_text in Heq.
    rewrite !length_append in Heq.
    pose proof (join_nonempty ("," +:+ newline) (x :: items)) as Hj.
    specialize (Hj ltac:(discriminate) Hall).
    remember (join ("," +:+ newline) (x :: items)) as joined.
    simpl in Heq. lia.
  - intros ->. reflexivity.
Qed.

Lemma classify_displayed (low high : value) (d : Diff) :
  classify low high = Ok d ->
  (merge_state d = "NEW"%string <->
   (low_state d = "NEW"%string /\ high_state d = "n/a"%string) \/
   (low_state d = "n/a"%string /\ high_state d = "NEW"%string)) /\
  (merge_state d = "SAME"%string <->
   low_state d = object_type d +:+ "()" /\
   high_state d = object_type d +:+ "()").
Proof.
  intros Hd. apply classify_inv in Hd as (Hl & Hh & _ & Hcase).
  rewrite low_state_eq, high_state_eq, Hl, Hh. unfold object_type.
  assert (Hlong : forall items s,
            String.length s < 5 -> state_text (class_name (obj_type d)) items <> s).
  { intros items s Hs Heq. pose proof (state_text_long (obj_type d) items).
    rewrite Heq in *. lia. }
  assert (Hshort : forall s, String.length s < 5 ->
                             s <> class_name (obj_type d) +:+ "()").
  { intros s Hs ->. rewrite length_append in Hs.
    assert (3 <= String.length (class_name (obj_type d)))
      by (destruct (obj_type d); simpl; lia).
    simpl in Hs. lia. }
  destruct Hcase as [(Hor & Hand & Hnew & _) | (Hnl & Hnh & f & _ & _ & Hst)].
  - rewrite Hnew.
    assert (Hsame : forall s t : string,
              String.length s < 5 ->
              "NEW"%string = "SAME"%string <->
              s = class_name (obj_type d) +:+ "()" /\
              t = class_name (obj_type d) +:+ "()").
    { intros s t Hs. split; [discriminate|].
      intros [Heq _]. exfalso. by eapply Hshort. }
    destruct (is_None low), (is_None high); try discriminate.
    + split; [|apply Hsame; simpl; lia].
      split; [intros _; right; by split | reflexivity].
    + split; [|apply Hsame; simpl; lia].
      split; [intros _; left; by split | reflexivity].
  - rewrite Hnl, Hnh, Hst. split.
    + split.
      * destruct (diff_list d); discriminate.
      * intros [[Heq _]|[Heq _]]; exfalso; (eapply Hlong; [|exact Heq]);
          simpl; lia.
    + assert (Hitems : forall (g : DiffAttr -> string) item,
                In item (map (fun e => attr_name e +:+ "=" +:+ g e)
                           (diff_list d)) ->
                1 <= String.length item).
      { intros g item Hin. apply in_map_iff in Hin as (e & <- & _).
        rewrite !length_append. simpl. lia. }
      rewrite !state_text_empty by apply Hitems.
      destruct (diff_list d); simpl; split; try done.
      intros [? _]. discriminate.
Qed.

End DisplayEntryFacts.

(** X17.  For a [Diff] that [add_obj] appends, the two displayed states
    tell the merge state: the state is ["NEW"] exactly when one of
    [low_state] and [high_state] is ["NEW"] and the other ["n/a"], and
    ["SAME"] exactly when both are the name of the class followed by
    ["()"]. *)
Theorem displayed_states_of_entries :
  forall (ne : PyNe value) (str : PyStr value) (low high : value)
         (st st' : State),
    add_obj low high st = Ok st' ->
    exists d,
      st' = append_diff st d /\
      (merge_state d = "NEW"%string <->
       (low_state d = "NEW"%string /\ high_state d = "n/a"%string) \/
       (low_state d = "n/a"%string /\ high_state d = "NEW"%string)) /\
      (merge_state d = "SAME"%string <->
       low_state d = object_type d +:+ "()" /\
       high_state d = object_type d +:+ "()").
Proof.
  intros ne str low high st st' Hadd.
  apply add_obj_inv in Hadd as (d & Hd & ->). exists d.
  split; [reflexivity | by eapply classify_displayed].
Qed.

Lemma displayed_states_of_entries_witness :
  exists d,
    mkState [mkDiff VNone (sample_log 1%N "a" "b") SyftLog "NEW" []] =
      append_diff (mkState []) d /\
    (merge_state d = "NEW"%string <->
     (low_state (str := fun _ => "v"%string) d = "NEW"%string /\
      high_state (str := fun _ => "v"%string) d = "n/a"%string) \/
     (low_state (str := fun _ => "v"%string) d = "n/a"%string /\
      high_state (str := fun _ => "v"%string) d = "NEW"%string)) /\
    (merge_state d = "SAME"%string <->
     low_state (str := fun _ => "v"%string) d = object_type d +:+ "()" /\
     high_state (str := fun _ => "v"%string) d = object_type d +:+ "()").
Proof.
  apply (displayed_states_of_entries value_ne (fun _ => "v"%string)
           VNone (sample_log 1%N "a" "b") (mkState [])).
  reflexivity.
Defined.
